(** * fff: the fetch / filter / persist pipeline of [main.go]

    A shallow embedding of the program's save decision, path normaliser,
    artifact key, artifact serialiser and per-line task, run one after the
    other and as goroutines that share [method], together with the parts of
    the Go standard library they call ([crypto/sha1], [path], [strings],
    [bytes], [unicode/utf8], [strconv], the two regular expressions), and
    the properties of the specification proved (or refuted) on them.

    Go strings and byte slices are byte sequences: they are [string]s here
    (a Rocq [ascii] is one byte). *)

From Stdlib Require Import ZArith Ascii String List Bool Lia.
From stdpp Require Import gmap strings list pretty.

(** ** Bytes and string literals *)

Definition LF : string := String "010" "".
Definition CR : string := String "013" "".

Definition byte_of (c : ascii) : Z := Z.of_N (N_of_ascii c).
Definition bytes_of (s : string) : list Z := map byte_of (list_ascii_of_string s).

(** [strings.Join(elems, sep)]. *)
Fixpoint strings_Join (elems : list string) (sep : string) : string :=
  match elems with
  | [] => ""
  | [e] => e
  | e :: rest => e +:+ sep +:+ strings_Join rest sep
  end.

(** ** crypto/sha1 *)

Module sha1.

Definition u32 (x : Z) : Z := (x mod 4294967296)%Z.

(** [bits.RotateLeft32]. *)
Definition RotateLeft32 (x : Z) (k : Z) : Z :=
  u32 (Z.lor (Z.shiftl x k) (Z.shiftr x (32 - k)%Z)).

(** [^b] on a [uint32]. *)
Definition not32 (x : Z) : Z := Z.lxor x 0xFFFFFFFF.

Definition K0 : Z := 0x5A827999.
Definition K1 : Z := 0x6ED9EBA1.
Definition K2 : Z := 0x8F1BBCDC.
Definition K3 : Z := 0xCA62C1D6.

(** The five chaining words [h0 .. h4] of a digest. *)
Record digest := Digest { h0 : Z; h1 : Z; h2 : Z; h3 : Z; h4 : Z }.

Definition init : digest :=
  Digest 0x67452301 0xEFCDAB89 0x98BADCFE 0x10325476 0xC3D2E1F0.

(** The sixteen big-endian words of a 64-byte chunk. *)
Fixpoint words (p : list Z) : list Z :=
  match p with
  | b0 :: b1 :: b2 :: b3 :: p' =>
      Z.lor (Z.lor (Z.lor (Z.shiftl b0 24) (Z.shiftl b1 16)) (Z.shiftl b2 8)) b3
      :: words p'
  | _ => []
  end.

(** The working variables of one chunk: the circular buffer [w] and
    [a, b, c, d, e]. *)
Record round_state := Round { w : list Z; ra : Z; rb : Z; rc : Z; rd : Z; re : Z }.

Definition at16 (ws : list Z) (i : nat) : Z := nth (i mod 16) ws 0%Z.

(** One iteration of the loops of [blockGeneric], at index [i]. *)
Definition round (s : round_state) (i : nat) : round_state :=
  let ws :=
    if (i <? 16)%nat then w s
    else
      let tmp := Z.lxor (Z.lxor (Z.lxor (at16 (w s) (i - 3)) (at16 (w s) (i - 8)))
                                (at16 (w s) (i - 14))) (at16 (w s) i) in
      <[(i mod 16)%nat := RotateLeft32 tmp 1]> (w s) in
  let f :=
    if (i <? 20)%nat then Z.lor (Z.land (rb s) (rc s)) (Z.land (not32 (rb s)) (rd s))
    else if (i <? 40)%nat then Z.lxor (Z.lxor (rb s) (rc s)) (rd s)
    else if (i <? 60)%nat then
      Z.lor (Z.land (Z.lor (rb s) (rc s)) (rd s)) (Z.land (rb s) (rc s))
    else Z.lxor (Z.lxor (rb s) (rc s)) (rd s) in
  let k :=
    if (i <? 20)%nat then K0 else if (i <? 40)%nat then K1
    else if (i <? 60)%nat then K2 else K3 in
  let t := u32 (RotateLeft32 (ra s) 5 + f + re s + at16 ws i + k)%Z in
  Round ws t (ra s) (RotateLeft32 (rb s) 30) (rc s) (rd s).

(** One 64-byte chunk folded into the digest. *)
Definition block (d : digest) (chunk : list Z) : digest :=
  let s := fold_left round (seq 0 80)
             (Round (words chunk) (h0 d) (h1 d) (h2 d) (h3 d) (h4 d)) in
  Digest (u32 (h0 d + ra s)%Z) (u32 (h1 d + rb s)%Z) (u32 (h2 d + rc s)%Z)
         (u32 (h3 d + rd s)%Z) (u32 (h4 d + re s)%Z).

(** [n] chunks of [p], in order. *)
Fixpoint blocks (n : nat) (d : digest) (p : list Z) : digest :=
  match n with
  | O => d
  | S n' => blocks n' (block d (firstn 64 p)) (skipn 64 p)
  end.

(** Big-endian bytes of a word of [n] bytes. *)
Fixpoint be_bytes (n : nat) (x : Z) : list Z :=
  match n with
  | O => []
  | S n' => ((Z.shiftr x (8 * Z.of_nat n')) mod 256)%Z :: be_bytes n' x
  end.

(** The padding of [checkSum]: a 1 bit, zeros up to 56 bytes mod 64, and the
    length in bits as a 64-bit big-endian number. *)
Definition padding (len : nat) : list Z :=
  let t := if (len mod 64 <? 56)%nat then (56 - len mod 64)%nat
           else (64 + 56 - len mod 64)%nat in
  (128%Z :: repeat 0%Z (t - 1)) ++ be_bytes 8 ((Z.of_nat len * 8) mod 2 ^ 64)%Z.

(** [sha1.Sum(data)]: the 20-byte checksum. *)
Definition Sum (data : string) : list Z :=
  let p := bytes_of data ++ padding (String.length data) in
  let d := blocks (List.length p / 64)%nat init p in
  be_bytes 4 (h0 d) ++ be_bytes 4 (h1 d) ++ be_bytes 4 (h2 d)
    ++ be_bytes 4 (h3 d) ++ be_bytes 4 (h4 d).

End sha1.

(** ** fmt: the verbs the program uses *)

Definition hexdigit (n : Z) : ascii :=
  match n with
  | 0 => "0" | 1 => "1" | 2 => "2" | 3 => "3" | 4 => "4" | 5 => "5" | 6 => "6"
  | 7 => "7" | 8 => "8" | 9 => "9" | 10 => "a" | 11 => "b" | 12 => "c"
  | 13 => "d" | 14 => "e" | _ => "f"
  end%Z%char.

(** [fmt.Sprintf("%x", hash)] on a byte array: two lower-case digits a byte. *)
Fixpoint fmt_x (bs : list Z) : string :=
  match bs with
  | [] => ""
  | b :: bs' => String (hexdigit (b / 16)%Z) (String (hexdigit (b mod 16)%Z) (fmt_x bs'))
  end.

(** [%d] on an [int]. *)
Definition fmt_d (n : Z) : string := pretty n.

(** ** unicode/utf8 and unicode *)

Module utf8.

Definition RuneError : Z := 0xFFFD.
Definition RuneSelf : Z := 0x80.
Definition UTFMax : nat := 4.

(** The table [first] with the accept ranges inlined: for a leading byte of
    a multi-byte sequence, its size and the bounds of its second byte;
    [None] for the bytes marked invalid. *)
Definition first (p0 : Z) : option (nat * Z * Z) :=
  if (p0 <? 0xC2)%Z then None
  else if (p0 <? 0xE0)%Z then Some (2%nat, 0x80, 0xBF)%Z
  else if (p0 =? 0xE0)%Z then Some (3%nat, 0xA0, 0xBF)%Z
  else if (p0 <? 0xED)%Z then Some (3%nat, 0x80, 0xBF)%Z
  else if (p0 =? 0xED)%Z then Some (3%nat, 0x80, 0x9F)%Z
  else if (p0 <? 0xF0)%Z then Some (3%nat, 0x80, 0xBF)%Z
  else if (p0 =? 0xF0)%Z then Some (4%nat, 0x90, 0xBF)%Z
  else if (p0 <? 0xF4)%Z then Some (4%nat, 0x80, 0xBF)%Z
  else if (p0 =? 0xF4)%Z then Some (4%nat, 0x80, 0x8F)%Z
  else None.

Definition cont (b : Z) : bool := ((0x80 <=? b) && (b <=? 0xBF))%Z.

(** [utf8.DecodeRune(p)]: the first rune of [p] and its width in bytes. *)
Definition DecodeRune (p : string) : Z * nat :=
  match p with
  | "" => (RuneError, 0%nat)
  | String c0 p1 =>
    let p0 := byte_of c0 in
    if (p0 <? RuneSelf)%Z then (p0, 1%nat)
    else match first p0 with
    | None => (RuneError, 1%nat)
    | Some (sz, lo, hi) =>
      if (String.length p <? sz)%nat then (RuneError, 1%nat)
      else match p1 with
      | "" => (RuneError, 1%nat)
      | String c1 p2 =>
        let b1 := byte_of c1 in
        if ((b1 <? lo) || (hi <? b1))%Z then (RuneError, 1%nat)
        else if (sz <=? 2)%nat then
          (Z.lor (Z.shiftl (Z.land p0 0x1F) 6) (Z.land b1 0x3F), 2%nat)
        else match p2 with
        | "" => (RuneError, 1%nat)
        | String c2 p3 =>
          let b2 := byte_of c2 in
          if negb (cont b2) then (RuneError, 1%nat)
          else if (sz <=? 3)%nat then
            (Z.lor (Z.lor (Z.shiftl (Z.land p0 0x0F) 12) (Z.shiftl (Z.land b1 0x3F) 6))
                   (Z.land b2 0x3F), 3%nat)
          else match p3 with
          | "" => (RuneError, 1%nat)
          | String c3 _ =>
            let b3 := byte_of c3 in
            if negb (cont b3) then (RuneError, 1%nat)
            else
              (Z.lor (Z.lor (Z.lor (Z.shiftl (Z.land p0 0x07) 18)
                                   (Z.shiftl (Z.land b1 0x3F) 12))
                            (Z.shiftl (Z.land b2 0x3F) 6)) (Z.land b3 0x3F), 4%nat)
          end
        end
      end
    end
  end.

(** [p[i]], 0 out of range (the callers stay in range). *)
Definition at_ (p : string) (i : Z) : Z :=
  match String.get (Z.to_nat i) p with Some c => byte_of c | None => 0%Z end.

Definition RuneStart (b : Z) : bool := negb (Z.land b 0xC0 =? 0x80)%Z.

(** The backward scan of [DecodeLastRune]: from [start] down to [lim], stop
    at a byte that starts a rune; [n] bounds the iterations ([UTFMax] is
    enough, as [lim] is at most [UTFMax - 1] bytes below the first [start]). *)
Fixpoint scanBack (n : nat) (p : string) (start lim : Z) : Z :=
  match n with
  | O => start
  | S n' =>
    if (start <? lim)%Z then start
    else if RuneStart (at_ p start) then start
    else scanBack n' p (start - 1)%Z lim
  end.

(** [utf8.DecodeLastRune(p)]: the last rune of [p] and its width. *)
Definition DecodeLastRune (p : string) : Z * nat :=
  let end_ := String.length p in
  if (end_ =? 0)%nat then (RuneError, 0%nat)
  else
    let r := at_ p (Z.of_nat end_ - 1) in
    if (r <? RuneSelf)%Z then (r, 1%nat)
    else
      let lim := Z.max 0 (Z.of_nat end_ - Z.of_nat UTFMax) in
      let start := Z.to_nat (Z.max 0 (scanBack UTFMax p (Z.of_nat end_ - 2) lim)) in
      let '(r, size) := DecodeRune (substring start (end_ - start) p) in
      if negb (start + size =? end_)%nat then (RuneError, 1%nat) else (r, size).

End utf8.

(** [unicode.IsSpace]. *)
Definition unicode_IsSpace (r : Z) : bool :=
  if (r <=? 0xFF)%Z then
    ((r =? 9) || (r =? 10) || (r =? 11) || (r =? 12) || (r =? 13) || (r =? 32)
     || (r =? 0x85) || (r =? 0xA0))%Z
  else
    ((r =? 0x1680) || ((0x2000 <=? r) && (r <=? 0x200A)) || (r =? 0x2028)
     || (r =? 0x2029) || (r =? 0x202F) || (r =? 0x205F) || (r =? 0x3000))%Z.

(** ** bytes and strings *)

(** [bytes.TrimLeftFunc(s, f)]: the loop of [indexFunc] decodes a rune at the
    current position and moves past it while [f] holds; [skip] counts the
    bytes of the current rune still to pass. *)
Fixpoint bytes_TrimLeftFunc_from (f : Z -> bool) (skip : nat) (s : string) : string :=
  match s with
  | "" => ""
  | String _ s' =>
    match skip with
    | S k => bytes_TrimLeftFunc_from f k s'
    | O =>
      let '(r, wid) := utf8.DecodeRune s in
      if f r then bytes_TrimLeftFunc_from f (wid - 1) s' else s
    end
  end.

Definition bytes_TrimLeftFunc (s : string) (f : Z -> bool) : string :=
  bytes_TrimLeftFunc_from f 0 s.

(** [lastIndexFunc(s, f, false)]: the start of the last rune on which [f] is
    false, walking back from [i] with [DecodeLastRune]; [None] is -1. *)
Fixpoint bytes_lastIndexFunc_from (f : Z -> bool) (s : string) (skip i : nat) : option nat :=
  match i with
  | O => None
  | S i' =>
    match skip with
    | S k => bytes_lastIndexFunc_from f s k i'
    | O =>
      let '(r, size) := utf8.DecodeLastRune (substring 0 i s) in
      if f r then bytes_lastIndexFunc_from f s (size - 1) i' else Some (i - size)%nat
    end
  end.

(** [bytes.TrimRightFunc(s, f)]. *)
Definition bytes_TrimRightFunc (s : string) (f : Z -> bool) : string :=
  match bytes_lastIndexFunc_from f s 0 (String.length s) with
  | None => ""
  | Some i =>
    if (utf8.RuneSelf <=? utf8.at_ s (Z.of_nat i))%Z
    then substring 0 (i + snd (utf8.DecodeRune (substring i (String.length s - i) s))) s
    else substring 0 (i + 1) s
  end.

(** [bytes.TrimSpace(s)] is [TrimFunc(s, unicode.IsSpace)] (its ASCII fast
    path returns the same bytes). *)
Definition bytes_TrimSpace (s : string) : string :=
  bytes_TrimRightFunc (bytes_TrimLeftFunc s unicode_IsSpace) unicode_IsSpace.

Fixpoint HasPrefix (s prefix : string) {struct prefix} : bool :=
  match prefix, s with
  | "", _ => true
  | String p prefix', String c s' => (c =? p)%char && HasPrefix s' prefix'
  | String _ _, "" => false
  end.

(** [bytes.Contains(b, subslice)]: [subslice] starts at some index of [b]. *)
Fixpoint bytes_Contains (b subslice : string) : bool :=
  HasPrefix b subslice
  || match b with "" => false | String _ b' => bytes_Contains b' subslice end.

(** The first separator byte of [s]: what stands before and after it. *)
Fixpoint cutAt (sep : ascii) (s : string) : option (string * string) :=
  match s with
  | "" => None
  | String c s' =>
    if (c =? sep)%char then Some ("", s')
    else match cutAt sep s' with
         | Some (a, b) => Some (String c a, b)
         | None => None
         end
  end.

(** [strings.SplitN(s, sep, 2)] for a one-byte separator. *)
Definition strings_SplitN2 (s : string) (sep : ascii) : list string :=
  match cutAt sep s with
  | Some (a, b) => [a; b]
  | None => [s]
  end.

(** ** regexp: the two patterns of the program

    Both patterns are ASCII, and every byte of a Go string outside ASCII
    decodes to a rune outside ASCII (or to [RuneError]); such a rune matches
    no letter of [<html] and lies outside the class [a-zA-Z0-9/._-], and an
    ASCII byte is always a rune of its own. So both are modelled on bytes. *)

(** Case folding of [(?i)] on a byte: the letters [h], [t], [m], [l] fold
    only with their capitals. *)
Definition foldCase (c : ascii) : ascii :=
  let b := byte_of c in
  if ((65 <=? b) && (b <=? 90))%Z then ascii_of_nat (nat_of_ascii c + 32) else c.

Fixpoint HasPrefixFold (s lit : string) {struct lit} : bool :=
  match lit, s with
  | "", _ => true
  | String p lit', String c s' => (foldCase c =? foldCase p)%char && HasPrefixFold s' lit'
  | String _ _, "" => false
  end.

(** [regexp.MustCompile(`(?i)lit`).Match(b)] for a literal [lit]: an
    unanchored, case-insensitive search. *)
Fixpoint regexp_MatchFold (lit b : string) : bool :=
  HasPrefixFold b lit
  || match b with "" => false | String _ b' => regexp_MatchFold lit b' end.

(** [regexp.MustCompile(`[^class]+`).ReplaceAllString(src, repl)]: each
    leftmost, longest run of bytes outside [class] becomes one [repl];
    [inRun] says that the run the current byte belongs to was replaced
    already. *)
Fixpoint regexp_ReplaceRuns (class : ascii -> bool) (repl : string) (inRun : bool)
    (src : string) : string :=
  match src with
  | "" => ""
  | String c src' =>
    if class c then String c (regexp_ReplaceRuns class repl false src')
    else if inRun then regexp_ReplaceRuns class repl true src'
    else repl +:+ regexp_ReplaceRuns class repl true src'
  end.

(** ** path *)

Definition isSlash (c : ascii) : bool := (c =? "/")%char.
Definition isDot (c : ascii) : bool := (c =? ".")%char.

(** [r == n || path[r] == '/'] for the rest [rest] of the path at [r]. *)
Definition endOfElem (rest : string) : bool :=
  match rest with "" => true | String c _ => isSlash c end.

(** The [..] case that can backtrack: [out.w--], then [out.w--] while
    [out.w > dotdot && out.index(out.w) != '/']. The buffer is kept
    reversed, so its head is the byte at [out.w - 1]. *)
Fixpoint backtrack (out : string) (dotdot : nat) : string :=
  match out with
  | "" => ""
  | String c out' =>
    if (dotdot <? String.length out')%nat && negb (isSlash c)
    then backtrack out' dotdot else out'
  end.

(** The start of a real path element: a slash is appended first, if needed. *)
Definition withSlash (rooted : bool) (out : string) : string :=
  if (rooted && negb (String.length out =? 1)%nat)
     || (negb rooted && negb (String.length out =? 0)%nat)
  then String "/" out else out.

(** The loop [for r < n] of [path.Clean] on the rest of the path, with the
    buffer [out] reversed ([out.w] is its length). The inner loop that
    copies a path element is the mode [inElem]: it ends at a slash, which
    the next iteration of the outer loop would skip. *)
Fixpoint cleanLoop (rooted inElem : bool) (path out : string) (dotdot : nat) : string :=
  match path with
  | "" => out
  | String c rest =>
    if inElem then
      if isSlash c then cleanLoop rooted false rest out dotdot
      else cleanLoop rooted true rest (String c out) dotdot
    else if isSlash c then cleanLoop rooted false rest out dotdot
    else if isDot c && endOfElem rest then cleanLoop rooted false rest out dotdot
    else
      match rest with
      | String c1 rest2 =>
        if isDot c && isDot c1 && endOfElem rest2 then
          if (dotdot <? String.length out)%nat then
            cleanLoop rooted false rest2 (backtrack out dotdot) dotdot
          else if negb rooted then
            let out1 := if (0 <? String.length out)%nat then String "/" out else out in
            let out2 := String "." (String "." out1) in
            cleanLoop rooted false rest2 out2 (String.length out2)
          else cleanLoop rooted false rest2 out dotdot
        else cleanLoop rooted true rest (String c (withSlash rooted out)) dotdot
      | "" => cleanLoop rooted true rest (String c (withSlash rooted out)) dotdot
      end
  end.

(** [path.Clean(path)]. *)
Definition path_Clean (path : string) : string :=
  match path with
  | "" => "."
  | String c rest =>
    let rooted := isSlash c in
    let out :=
      if rooted then cleanLoop true false rest "/" 1
      else cleanLoop false false path "" 0 in
    if (String.length out =? 0)%nat then "." else String.rev out
  end.

(** The loop of [path.Join] that fills [buf]. *)
Fixpoint joinBuf (elem : list string) (buf : string) : string :=
  match elem with
  | [] => buf
  | e :: elem' =>
    if (0 <? String.length buf)%nat || negb (e =? "")%string then
      joinBuf elem' ((if (0 <? String.length buf)%nat then buf +:+ "/" else buf) +:+ e)
    else joinBuf elem' buf
  end.

(** [path.Join(elem...)]. *)
Definition path_Join (elem : list string) : string :=
  if (list_sum (map String.length elem) =? 0)%nat then ""
  else path_Clean (joinBuf elem "").

(** [path.Dir(path)]: [Clean] of the path up to and with its last slash. *)
Fixpoint lastSlashPrefix (path : string) : string :=
  match path with
  | "" => ""
  | String c rest =>
    if isSlash c || bytes_Contains rest "/" then String c (lastSlashPrefix rest) else ""
  end.

Definition path_Dir (path : string) : string := path_Clean (lastSlashPrefix path).

(** ** strconv.Atoi, for an [int] of 64 bits *)

Module strconv.

Inductive NumError := ErrSyntax | ErrRange.

(** The value of a decimal digit; [None] for any other byte. *)
Definition digit (c : ascii) : option Z :=
  let b := byte_of c in
  if ((48 <=? b) && (b <=? 57))%Z then Some (b - 48)%Z else None.

Definition isSign (c : ascii) : bool := (c =? "-")%char || (c =? "+")%char.

(** The loop of the fast path of [Atoi]. *)
Fixpoint atoiLoop (s : string) (n : Z) : option Z :=
  match s with
  | "" => Some n
  | String ch s' =>
    match digit ch with
    | None => None
    | Some d => atoiLoop s' (n * 10 + d)%Z
    end
  end.

(** The fast path of [Atoi], for strings of 1 to 18 bytes. *)
Definition atoiFast (s0 : string) : Z * option NumError :=
  match s0 with
  | "" => (0%Z, Some ErrSyntax)
  | String c0 rest =>
    let s := if isSign c0 then rest else s0 in
    if isSign c0 && (String.length s <? 1)%nat then (0%Z, Some ErrSyntax)
    else match atoiLoop s 0 with
         | None => (0%Z, Some ErrSyntax)
         | Some n => (if (c0 =? "-")%char then (- n)%Z else n, None)
         end
  end.

Definition maxUint64 : Z := 18446744073709551615.

Inductive uresult := UOk (n : Z) | USyntax | URange.

(** The loop of [ParseUint(s, 10, 64)]: [cutoff] is [maxUint64/10 + 1], and
    [n + d] wraps as a [uint64]. *)
Fixpoint parseUintLoop (s : string) (n : Z) : uresult :=
  match s with
  | "" => UOk n
  | String c s' =>
    match digit c with
    | None => USyntax
    | Some d =>
      if (maxUint64 / 10 + 1 <=? n)%Z then URange
      else
        let n := (n * 10)%Z in
        let n1 := ((n + d) mod 2 ^ 64)%Z in
        if ((n1 <? n) || (maxUint64 <? n1))%Z then URange else parseUintLoop s' n1
    end
  end.

Definition ParseUint (s : string) : uresult :=
  match s with "" => USyntax | _ => parseUintLoop s 0 end.

(** [ParseInt(s, 10, 0)]: on a range error the value is the nearest [int64]. *)
Definition ParseInt (s0 : string) : Z * option NumError :=
  match s0 with
  | "" => (0%Z, Some ErrSyntax)
  | String c0 rest =>
    let neg := (c0 =? "-")%char in
    let s := if isSign c0 then rest else s0 in
    let cutoff := (2 ^ 63)%Z in
    match ParseUint s with
    | USyntax => (0%Z, Some ErrSyntax)
    | URange => (if neg then (- cutoff)%Z else (cutoff - 1)%Z, Some ErrRange)
    | UOk un =>
      if negb neg && (cutoff <=? un)%Z then ((cutoff - 1)%Z, Some ErrRange)
      else if neg && (cutoff <? un)%Z then ((- cutoff)%Z, Some ErrRange)
      else (if neg then (- un)%Z else un, None)
    end
  end.

(** [strconv.Atoi(s)]: the value and the error. *)
Definition Atoi (s : string) : Z * option NumError :=
  if ((0 <? String.length s) && (String.length s <? 19))%nat then atoiFast s
  else ParseInt s.

End strconv.

(** ** main.go: flags, argument types and [normalisePath] *)

(** The flags the tasks read. [method] is not among them: the tasks assign
    to it, so it lives in the [State] below. *)
Record Flags := {
  requestBody : string;
  saveResponses : bool;
  match_ : string;
  outputDir : string;
  headers : list string;
  saveStatus : list Z;
  ignoreHTMLFiles : bool;
  ignoreEmpty : bool
}.

(** [func (h headerArgs) String() string]. *)
Definition headerArgs_String (h : list string) : string := strings_Join h ", ".

(** [func (s saveStatusArgs) Includes(search int) bool]. *)
Fixpoint Includes (s : list Z) (search : Z) : bool :=
  match s with
  | [] => false
  | status :: s' => if (status =? search)%Z then true else Includes s' search
  end.

(** [func (s *saveStatusArgs) Set(val string) error]: the list after the
    call, and the error returned. *)
Definition saveStatusArgs_Set (s : list Z) (val : string) : list Z * option string :=
  let (i, _) := strconv.Atoi val in
  (s ++ [i], None).

(** What the program reads of a [*url.URL]: [u.Hostname()] and [u.Path]. *)
Record URL := { Hostname : string; Path : string }.

(** The class [a-zA-Z0-9/._-] of [normalisePath]. *)
Definition pathByte (c : ascii) : bool :=
  let b := byte_of c in
  ((97 <=? b) && (b <=? 122) || (65 <=? b) && (b <=? 90) || (48 <=? b) && (b <=? 57))%Z
  || (c =? "/")%char || (c =? ".")%char || (c =? "_")%char || (c =? "-")%char.

(** [func normalisePath(u *url.URL) string]. *)
Definition normalisePath (u : URL) : string :=
  regexp_ReplaceRuns pathByte "-" false (Path u).

(** [isHTML.Match] for [isHTML := regexp.MustCompile(`(?i)<html`)]. *)
Definition isHTML_Match (b : string) : bool := regexp_MatchFold "<html" b.

(** ** main.go: the save decision (lines 171-193) *)

(** The variable [shouldSave] after the two ignore policies (line 186). *)
Definition shouldSave_policies (f : Flags) (StatusCode : Z) (responseBody : string) : bool :=
  let shouldSave :=
    saveResponses f
    || (0 <? List.length (saveStatus f))%nat && Includes (saveStatus f) StatusCode in
  let shouldSave :=
    if ignoreHTMLFiles f then shouldSave && negb (isHTML_Match responseBody)
    else shouldSave in
  let shouldSave :=
    if ignoreEmpty f
    then shouldSave && negb (String.length (bytes_TrimSpace responseBody) =? 0)%nat
    else shouldSave in
  shouldSave.

(** The variable [shouldSave] when it is tested (line 195). *)
Definition shouldSave (f : Flags) (StatusCode : Z) (responseBody : string) : bool :=
  let shouldSave := shouldSave_policies f StatusCode responseBody in
  if negb (match_ f =? "")%string then
    if bytes_Contains responseBody (match_ f) then true else shouldSave
  else shouldSave.

(** ** main.go: the artifact (lines 200-239) *)

(** [hash := sha1.Sum([]byte(method + rawURL + requestBody + headers.String()))]. *)
Definition hashInput (method rawURL requestBody : string) (headers : list string) : string :=
  method +:+ rawURL +:+ requestBody +:+ headerArgs_String headers.

Definition artifactKey (method rawURL requestBody : string) (headers : list string) : list Z :=
  sha1.Sum (hashInput method rawURL requestBody headers).

(** [p := path.Join(prefix, req.URL.Hostname(), normalisedPath, fmt.Sprintf("%x", hash))]. *)
Definition artifactPath (prefix : string) (u : URL) (method rawURL requestBody : string)
    (headers : list string) : string :=
  let normalisedPath := normalisePath u in
  let hash := artifactKey method rawURL requestBody headers in
  path_Join [prefix; Hostname u; normalisedPath; fmt_x hash].

(** [buf.WriteString(s)] on a [strings.Builder]. *)
Definition WriteString (buf s : string) : string := buf +:+ s.

(** The response as the program reads it. [Header] is a Go map: it has no
    order of its own. *)
Record Response := {
  StatusCode : Z;
  Proto : string;
  Status : string;
  Header : gmap string (list string)
}.

(** [for k, vs := range resp.Header]: the runtime visits the entries of the
    map in an order of its choice, and each entry once. *)
Definition rangeOrder (m : gmap string (list string)) (kvs : list (string * list string)) : Prop :=
  kvs ≡ₚ map_to_list m.

(** The text written into [buf] (lines 211-239); [visited] is the order in
    which [range resp.Header] visits the response headers. *)
Definition serialise (method rawURL : string) (headers : list string) (requestBody : string)
    (resp : Response) (visited : list (string * list string)) (responseBody : string) : string :=
  let buf := "" in
  let buf := WriteString buf (method +:+ " " +:+ rawURL +:+ LF +:+ LF) in
  let buf := fold_left (fun buf h => WriteString buf ("> " +:+ h +:+ LF)) headers buf in
  let buf := WriteString buf LF in
  let buf :=
    if negb (requestBody =? "")%string
    then WriteString (WriteString buf requestBody) (LF +:+ LF)
    else buf in
  let buf := WriteString buf ("< " +:+ Proto resp +:+ " " +:+ Status resp +:+ LF) in
  let buf :=
    fold_left (fun buf kvs =>
      fold_left (fun buf v => WriteString buf ("< " +:+ fst kvs +:+ ": " +:+ v +:+ LF))
                (snd kvs) buf) visited buf in
  let buf := WriteString buf (CR +:+ LF) in
  let buf := WriteString buf responseBody in
  buf.

(** ** main.go: one task (lines 120-250) and the run *)

(** A [*http.Request] as the program uses it after [http.NewRequest]. *)
Record Request := {
  reqMethod : string;
  reqURL : URL;
  reqHeader : gmap string (list string);
  reqBody : option string
}.

(** What the task asks of the libraries and of the world outside: a value
    on the left, the [error] on the right (or [Some] error where nothing
    else is returned). [ReadAll] is [ioutil.ReadAll(resp.Body)]; [mapRange]
    is the order in which [range] visits a map, each entry once. Within one
    run an answer depends on the arguments of the call only. *)
Class Runtime := {
  ParseRequestURI : string -> option string;
  NewRequest : string -> string -> option string -> Request + string;
  CanonicalHeaderKey : string -> string;
  Do : Request -> Response + string;
  ReadAll : Response -> string + string;
  mapRange : gmap string (list string) -> list (string * list string);
  mapRange_each_once : forall m, rangeOrder m (mapRange m);
  MkdirAll : string -> option string;
  WriteFile : string -> string -> option string
}.

(** The variable [method], shared by all tasks, and what a run leaves
    behind: the two output streams, the files, the requests handed to the
    client. *)
Record State := {
  method : string;
  stdout : string;
  stderr : string;
  files : gmap string string;
  sent : list Request
}.

Definition setMethod (m : string) (st : State) : State :=
  {| method := m; stdout := stdout st; stderr := stderr st; files := files st; sent := sent st |}.

(** [fmt.Printf]. *)
Definition Printf (s : string) (st : State) : State :=
  {| method := method st; stdout := stdout st +:+ s; stderr := stderr st;
     files := files st; sent := sent st |}.

(** [fmt.Fprintf(os.Stderr, ...)]. *)
Definition Eprintf (s : string) (st : State) : State :=
  {| method := method st; stdout := stdout st; stderr := stderr st +:+ s;
     files := files st; sent := sent st |}.

Definition written (p content : string) (st : State) : State :=
  {| method := method st; stdout := stdout st; stderr := stderr st;
     files := <[p := content]> (files st); sent := sent st |}.

Definition handed (req : Request) (st : State) : State :=
  {| method := method st; stdout := stdout st; stderr := stderr st;
     files := files st; sent := sent st ++ [req] |}.

(** The reader [b] (lines 124-126). *)
Definition bodyReader (f : Flags) : option string :=
  if negb (requestBody f =? "")%string then Some (requestBody f) else None.

(** Lines 125-132: with a body, [method] is assigned ["POST"] when it is
    ["GET"]. *)
Definition upgradeMethod (f : Flags) (st : State) : State :=
  if negb (requestBody f =? "")%string then
    if (method st =? "GET")%string then setMethod "POST" st else st
  else st.

(** Lines 146-153: [req.Header.Set(parts[0], parts[1])] for each header
    string with a colon. *)
Definition setHeader `{Runtime} (req : Request) (h : string) : Request :=
  match strings_SplitN2 h ":" with
  | [k; v] =>
    {| reqMethod := reqMethod req; reqURL := reqURL req;
       reqHeader := <[CanonicalHeaderKey k := [v]]> (reqHeader req);
       reqBody := reqBody req |}
  | _ => req
  end.

Definition setHeaders `{Runtime} (hs : list string) (req : Request) : Request :=
  fold_left setHeader hs req.

(** Line 139: the request is built with the current [method]. *)
Definition taskRequest `{Runtime} (f : Flags) (rawURL : string) (st : State) : Request + string :=
  NewRequest (method st) rawURL (bodyReader f).


(** Line 203. *)
Definition taskPath (f : Flags) (rawURL : string) (req : Request) (st : State) : string :=
  artifactPath (outputDir f) (reqURL req) (method st) rawURL (requestBody f) (headers f).

(** Lines 211-239, with the current [method]. *)
Definition taskArtifact `{Runtime} (f : Flags) (rawURL : string) (st : State)
    (resp : Response) (responseBody : string) : string :=
  serialise (method st) rawURL (headers f) (requestBody f) resp
            (mapRange (Header resp)) responseBody.

(** The task from line 134 on, in the state [st] it finds. *)
Definition taskFrom `{Runtime} (f : Flags) (rawURL : string) (st : State) : State :=
  match ParseRequestURI rawURL with
  | Some _ => st
  | None =>
    match taskRequest f rawURL st with
    | inr e => Eprintf ("failed to create request: " +:+ e +:+ LF) st
    | inl req =>
      let req := setHeaders (headers f) req in
      let st := handed req st in
      match Do req with
      | inr e => Eprintf ("request failed: " +:+ e +:+ LF) st
      | inl resp =>
        match ReadAll resp with
        | inr e => Eprintf ("failed to read body: " +:+ e +:+ LF) st
        | inl responseBody =>
          if negb (shouldSave f (StatusCode resp) responseBody) then
            Printf (rawURL +:+ " " +:+ fmt_d (StatusCode resp) +:+ LF) st
          else
            let p := taskPath f rawURL req st in
            match MkdirAll (path_Dir p) with
            | Some e => Eprintf ("failed to create dir: " +:+ e +:+ LF) st
            | None =>
              let buf := taskArtifact f rawURL st resp responseBody in
              match WriteFile p buf with
              | Some e => Eprintf ("failed to write file contents: " +:+ e +:+ LF) st
              | None =>
                Printf (p +:+ ": " +:+ rawURL +:+ " " +:+ fmt_d (StatusCode resp) +:+ LF)
                       (written p buf st)
              end
            end
        end
      end
    end
  end.

(** The closure of line 120. *)
Definition task `{Runtime} (f : Flags) (rawURL : string) (st : State) : State :=
  taskFrom f rawURL (upgradeMethod f st).

(** The tasks of the input lines, one after the other in the order of the
    lines (the schedule of the goroutines is not modelled). *)
Definition run `{Runtime} (f : Flags) (lines : list string) (st : State) : State :=
  fold_left (fun st rawURL => task f rawURL st) lines st.

(** ** main.go: the tasks as goroutines (lines 116-252)

    [main] starts the closure of line 120 as a goroutine for each line. The
    goroutines share the variable [method], the two streams, the file
    system and the client; the other variables of the closure are a task's
    own. A task stands at a point of the closure, named after the line it
    runs next, and holds the values of its own variables; it moves in
    steps, and between two of its steps any other task may move. A step
    has at most one access to [method] (the test of line 128, the
    assignment of line 129, the reads of lines 139, 202 and 214) or one
    call to the outside; the accesses to [method] are taken to happen one
    at a time, in the order of the steps. *)
Inductive Point :=
| L124                                              (* the test of the body and of [method] *)
| L129                                              (* the assignment to [method] *)
| L134                                              (* [url.ParseRequestURI] *)
| L139                                              (* [http.NewRequest], the header loop *)
| L156 (req : Request)                              (* [client.Do] *)
| L165 (req : Request) (resp : Response)            (* [ioutil.ReadAll], the decision *)
| L201 (req : Request) (resp : Response) (responseBody : string)   (* hash and path *)
| L204 (resp : Response) (responseBody p : string)  (* [os.MkdirAll] *)
| L211 (resp : Response) (responseBody p : string)  (* the text of the artifact *)
| L242 (resp : Response) (p buf : string)           (* [ioutil.WriteFile] *)
| Report (toStderr : bool) (text : string)          (* a line for one of the streams *)
| Return.

(** One step of the task of the line [rawURL]: the point it reaches and the
    shared state it leaves. *)
Definition step `{Runtime} (f : Flags) (rawURL : string) (pt : Point) (st : State)
    : Point * State :=
  match pt with
  | L124 =>
    if negb (requestBody f =? "")%string then
      if (method st =? "GET")%string then (L129, st) else (L134, st)
    else (L134, st)
  | L129 => (L134, setMethod "POST" st)
  | L134 =>
    match ParseRequestURI rawURL with
    | Some _ => (Return, st)
    | None => (L139, st)
    end
  | L139 =>
    match NewRequest (method st) rawURL (bodyReader f) with
    | inr e => (Report true ("failed to create request: " +:+ e +:+ LF), st)
    | inl req => (L156 (setHeaders (headers f) req), st)
    end
  | L156 req =>
    match Do req with
    | inr e => (Report true ("request failed: " +:+ e +:+ LF), handed req st)
    | inl resp => (L165 req resp, handed req st)
    end
  | L165 req resp =>
    match ReadAll resp with
    | inr e => (Report true ("failed to read body: " +:+ e +:+ LF), st)
    | inl responseBody =>
      if negb (shouldSave f (StatusCode resp) responseBody)
      then (Report false (rawURL +:+ " " +:+ fmt_d (StatusCode resp) +:+ LF), st)
      else (L201 req resp responseBody, st)
    end
  | L201 req resp responseBody =>
    (L204 resp responseBody
          (artifactPath (outputDir f) (reqURL req) (method st) rawURL (requestBody f)
                        (headers f)), st)
  | L204 resp responseBody p =>
    match MkdirAll (path_Dir p) with
    | Some e => (Report true ("failed to create dir: " +:+ e +:+ LF), st)
    | None => (L211 resp responseBody p, st)
    end
  | L211 resp responseBody p =>
    (L242 resp p (serialise (method st) rawURL (headers f) (requestBody f) resp
                            (mapRange (Header resp)) responseBody), st)
  | L242 resp p buf =>
    match WriteFile p buf with
    | Some e => (Report true ("failed to write file contents: " +:+ e +:+ LF), st)
    | None =>
      (Report false (p +:+ ": " +:+ rawURL +:+ " " +:+ fmt_d (StatusCode resp) +:+ LF),
       written p buf st)
    end
  | Report true text => (Return, Eprintf text st)
  | Report false text => (Return, Printf text st)
  | Return => (Return, st)
  end.


(** The tasks of the lines, each at the start of the closure. *)
Definition spawn (lines : list string) : list (string * Point) :=
  map (fun rawURL => (rawURL, L124)) lines.

(** The task with index [i] moves one step. *)
Definition move `{Runtime} (f : Flags) (i : nat) (c : list (string * Point) * State)
    : list (string * Point) * State :=
  match c.1 !! i with
  | Some (rawURL, pt) =>
    let '(pt', st') := step f rawURL pt c.2 in (<[i := (rawURL, pt')]> c.1, st')
  | None => c
  end.

(** The tasks move in the order of a schedule, the list of the indices of
    the tasks that move, one step each time. *)
Definition interleave `{Runtime} (f : Flags) (schedule : list nat)
    (c : list (string * Point) * State) : list (string * Point) * State :=
  fold_left (fun c i => move f i c) schedule c.


(** The state in which [main] starts the tasks, for the [-m] flag [m]. *)
Definition start (m : string) : State :=
  {| method := m; stdout := ""; stderr := ""; files := ∅; sent := [] |}.

(** What a run shows to the outside. *)
Definition observable (st : State) : string * string * gmap string string * list Request :=
  (stdout st, stderr st, files st, sent st).

(** The defaults of the flags ([method] defaults to ["GET"]). *)
Definition defaultFlags : Flags :=
  {| requestBody := ""; saveResponses := false; match_ := ""; outputDir := "out";
     headers := []; saveStatus := []; ignoreHTMLFiles := false; ignoreEmpty := false |}.

(** The flags [f] with the header strings [hs] in place of its own. *)
Definition withHeaders (hs : list string) (f : Flags) : Flags :=
  {| requestBody := requestBody f; saveResponses := saveResponses f; match_ := match_ f;
     outputDir := outputDir f; headers := hs; saveStatus := saveStatus f;
     ignoreHTMLFiles := ignoreHTMLFiles f; ignoreEmpty := ignoreEmpty f |}.

(** A small world for the scenarios of the specification: the empty line is
    no request URI, every other line is taken to name the root of
    [example.com], and the server answers 404 with an empty body. *)
Definition notFound : Response :=
  {| StatusCode := 404; Proto := "HTTP/1.1"; Status := "404 Not Found";
     Header := {[ "Content-Length" := ["0"] ]} |}.

Definition exampleWorld : Runtime :=
  {| ParseRequestURI := fun rawURL => if (rawURL =? "")%string then Some "empty url" else None;
     NewRequest := fun m rawURL b =>
       inl {| reqMethod := m; reqURL := {| Hostname := "example.com"; Path := "/" |};
              reqHeader := ∅; reqBody := b |};
     CanonicalHeaderKey := fun k => k;
     Do := fun _ => inl notFound;
     ReadAll := fun _ => inl "";
     mapRange := map_to_list;
     mapRange_each_once := fun m => Permutation_refl (map_to_list m);
     MkdirAll := fun _ => None;
     WriteFile := fun _ _ => None |}.

(** * Definitions for the statements

    What the specification says, written after its words, the small
    predicates of the statements, and the inputs of the scenarios. *)

(** ** Strings *)

(** [sub] occurs in [b] at some index. *)
Definition Substring (sub b : string) : Prop :=
  exists pre post, b = pre +:+ sub +:+ post.

(** Every byte of [s] satisfies [p]. *)
Fixpoint allBytes (p : ascii -> bool) (s : string) : bool :=
  match s with
  | "" => true
  | String c s' => p c && allBytes p s'
  end.

(** The string with each capital ASCII letter replaced by its small one. *)
Fixpoint foldString (s : string) : string :=
  match s with
  | "" => ""
  | String c s' => String (foldCase c) (foldString s')
  end.

(** The lines of [ls] one after the other. *)
Definition joinLines (ls : list string) : string := foldr String.append "" ls.

(** What stands before and after an element in the joined string. *)
Definition joinedBefore (hs : list string) (sep : string) : string :=
  match hs with [] => "" | _ => strings_Join hs sep +:+ sep end.

Definition joinedAfter (hs : list string) (sep : string) : string :=
  match hs with [] => "" | _ => sep +:+ strings_Join hs sep end.

(** [h] holds no colon. *)
Definition NoColon (h : string) : Prop := forall pre post, h <> pre +:+ ":" +:+ post.

(** ** Letters and white space *)

(** The byte with value [b]. *)
Definition char (b : Z) : ascii := ascii_of_N (Z.to_N b).

(** An ASCII capital letter, [A] to [Z]. *)
Definition capital (c : ascii) : bool := ((65 <=? byte_of c) && (byte_of c <=? 90))%Z.

(** The same letter, capital or small: the same byte, or a capital letter
    and its small letter, which stands 32 places after it. *)
Definition sameLetter (a b : ascii) : Prop :=
  a = b
  \/ (capital a = true /\ byte_of b = (byte_of a + 32)%Z)
  \/ (capital b = true /\ byte_of a = (byte_of b + 32)%Z).

(** Two strings that differ at most in the case of their ASCII letters. *)
Inductive equalFold : string -> string -> Prop :=
| equalFold_end : equalFold "" ""
| equalFold_byte (a b : ascii) (s t : string) :
    sameLetter a b -> equalFold s t -> equalFold (String a s) (String b t).

(** The code points with the Unicode property White_Space. *)
Definition whiteSpace : list Z :=
  [0x09; 0x0A; 0x0B; 0x0C; 0x0D; 0x20; 0x85; 0xA0; 0x1680;
   0x2000; 0x2001; 0x2002; 0x2003; 0x2004; 0x2005; 0x2006; 0x2007; 0x2008; 0x2009; 0x200A;
   0x2028; 0x2029; 0x202F; 0x205F; 0x3000]%Z.

(** The UTF-8 encoding of a code point (RFC 3629): one byte below 0x80, two
    below 0x800, three below 0x10000, else four. *)
Definition utf8_encoding (r : Z) : string :=
  if (r <? 0x80)%Z then String (char r) ""
  else if (r <? 0x800)%Z then
    String (char (192 + r / 64)) (String (char (128 + r mod 64)) "")
  else if (r <? 0x10000)%Z then
    String (char (224 + r / 4096))
      (String (char (128 + (r / 64) mod 64)) (String (char (128 + r mod 64)) ""))
  else
    String (char (240 + r / 262144))
      (String (char (128 + (r / 4096) mod 64))
         (String (char (128 + (r / 64) mod 64)) (String (char (128 + r mod 64)) ""))).

(** A string made of white space only: the encodings of white space
    characters, one after the other (the empty string too). *)
Inductive blank : string -> Prop :=
| blank_end : blank ""
| blank_rune (r : Z) (s : string) :
    In r whiteSpace -> blank s -> blank (utf8_encoding r +:+ s).

(** White space stands at the start, at the end of [t]. *)
Definition startsBlank (t : string) : Prop :=
  exists r x, In r whiteSpace /\ t = utf8_encoding r +:+ x.

Definition endsBlank (t : string) : Prop :=
  exists r x, In r whiteSpace /\ t = x +:+ utf8_encoding r.

(** [t] is [body] trimmed: [body] without the white space at its two
    ends. *)
Definition Trimmed (body t : string) : Prop :=
  exists l r, body = l +:+ t +:+ r /\ blank l /\ blank r /\ ~ startsBlank t /\ ~ endsBlank t.

(** ** The save decision, after section 4.2 *)

(** Following the specification: a case-insensitive occurrence of [<html]
    anywhere in the body, a part of the body that differs from [<html] at
    most in the case of its letters. *)
Definition looksLikeHTML (body : string) : Prop :=
  exists pre w post, body = pre +:+ w +:+ post /\ equalFold w "<html".

(** Following the specification, step by step. *)
Definition specStep1 (f : Flags) (status : Z) : Prop :=
  saveResponses f = true \/ (saveStatus f <> [] /\ In status (saveStatus f)).

Definition specStep2 (f : Flags) (status : Z) (body : string) : Prop :=
  if ignoreHTMLFiles f then specStep1 f status /\ ~ looksLikeHTML body
  else specStep1 f status.

Definition specStep3 (f : Flags) (status : Z) (body : string) : Prop :=
  if ignoreEmpty f then specStep2 f status body /\ (exists t, Trimmed body t /\ t <> "")
  else specStep2 f status body.

Definition specStep4 (f : Flags) (status : Z) (body : string) : Prop :=
  (match_ f <> "" /\ Substring (match_ f) body) \/ specStep3 f status body.

(** ** The path normaliser, after section 4.3 *)

(** A byte outside the class of [normalisePath]. *)
Definition outside (c : ascii) : bool := negb (pathByte c).

(** The end of the string or a byte of the class comes next. *)
Definition runEnds (s : string) : Prop :=
  match s with "" => True | String c _ => pathByte c = true end.

(** Following the specification: [t] is [s] with every maximal run of bytes
    outside [a-zA-Z0-9/._-] replaced by one [-]. A run is maximal on its
    right by [runEnds], and on its left because it starts the string or
    follows a byte that was kept. *)
Inductive RunsReplaced : string -> string -> Prop :=
| RunsReplaced_end : RunsReplaced "" ""
| RunsReplaced_keep (c : ascii) (s t : string) :
    pathByte c = true -> RunsReplaced s t -> RunsReplaced (String c s) (String c t)
| RunsReplaced_run (r s t : string) :
    r <> "" -> allBytes outside r = true -> runEnds s -> RunsReplaced s t ->
    RunsReplaced (r +:+ s) (String "-" t).

Abbreviation replaceRuns := (regexp_ReplaceRuns pathByte "-").

(** ** The artifact, after sections 3 and 6 *)

(** A digit of [%x]. *)
Definition lowerHex (c : ascii) : bool :=
  let b := byte_of c in ((48 <=? b) && (b <=? 57) || (97 <=? b) && (b <=? 102))%Z.

Definition requestHeaderLines (hs : list string) : list string :=
  map (fun h => "> " +:+ h +:+ LF) hs.

(** The lines of one response header name: one for each of its values, in
    their order. *)
Definition headerBlock (kvs : string * list string) : list string :=
  map (fun v => "< " +:+ fst kvs +:+ ": " +:+ v +:+ LF) (snd kvs).

Definition responseHeaderLines (visited : list (string * list string)) : list string :=
  flat_map headerBlock visited.

(** Following the specification (section 6): the layout of the artifact. *)
Definition layout (method rawURL : string) (headers : list string) (requestBody : string)
    (resp : Response) (visited : list (string * list string)) (responseBody : string) : string :=
  method +:+ " " +:+ rawURL +:+ LF
  +:+ LF
  +:+ joinLines (requestHeaderLines headers)
  +:+ LF
  +:+ (if (requestBody =? "")%string then "" else requestBody +:+ LF +:+ LF)
  +:+ "< " +:+ Proto resp +:+ " " +:+ Status resp +:+ LF
  +:+ joinLines (responseHeaderLines visited)
  +:+ CR +:+ LF
  +:+ responseBody.

(** The text before and after the response header lines. *)
Definition artifactHead (method rawURL : string) (headers : list string) (requestBody : string)
    (resp : Response) : string :=
  method +:+ " " +:+ rawURL +:+ LF +:+ LF
  +:+ joinLines (requestHeaderLines headers) +:+ LF
  +:+ (if (requestBody =? "")%string then "" else requestBody +:+ LF +:+ LF)
  +:+ "< " +:+ Proto resp +:+ " " +:+ Status resp +:+ LF.

Definition artifactTail (responseBody : string) : string := CR +:+ LF +:+ responseBody.

(** Following the specification: the method in force for a configured
    method [m]. *)
Definition effectiveMethod (f : Flags) (m : string) : string :=
  if negb (requestBody f =? "")%string && (m =? "GET")%string then "POST" else m.

(** ** The buffer of [path.Clean] *)

(** A byte of a path element that is neither a slash nor a dot. *)
Definition plainByte (c : ascii) : bool := negb (isSlash c) && negb (isDot c).


(** ** Inputs of the scenarios *)

(** The URL of ["http://example.com/"]: host [example.com], path [/]. *)
Definition exampleRoot : URL := {| Hostname := "example.com"; Path := "/" |}.

(** The flags of scenario 2: [--save]. *)
Definition scenario2 : Flags :=
  {| requestBody := ""; saveResponses := true; match_ := ""; outputDir := "out";
     headers := []; saveStatus := []; ignoreHTMLFiles := false; ignoreEmpty := false |}.

(** [--save] with the body [a=1], the method left at its default. *)
Definition withBody : Flags :=
  {| requestBody := "a=1"; saveResponses := true; match_ := ""; outputDir := "out";
     headers := []; saveStatus := []; ignoreHTMLFiles := false; ignoreEmpty := false |}.

(** Scenario 4 of the specification: [--match foo], [--ignore-empty], no
    other save flag, body [foobar]. *)
Definition scenario4 : Flags :=
  {| requestBody := ""; saveResponses := false; match_ := "foo"; outputDir := "out";
     headers := []; saveStatus := []; ignoreHTMLFiles := true; ignoreEmpty := true |}.

(** A response with two header names. *)
Definition twoHeaders : Response :=
  {| StatusCode := 200; Proto := "HTTP/1.1"; Status := "200 OK";
     Header := <["Content-Type" := ["text/plain"]]> {["Server" := ["nginx"]]} |}.

(** The two orders in which its header map can be visited. *)
Definition typeFirst : list (string * list string) :=
  [("Content-Type", ["text/plain"]); ("Server", ["nginx"])].

Definition serverFirst : list (string * list string) :=
  [("Server", ["nginx"]); ("Content-Type", ["text/plain"])].

(** ** The method in the requests and the artifacts *)







(** ** The outcomes of a task *)

(** The file that the task of a line writes when [method] is [m] after
    lines 124-132: its path and its text, if the task comes to write one. *)
Definition artifactOf `{Runtime} (f : Flags) (m rawURL : string) : option (string * string) :=
  match ParseRequestURI rawURL with
  | Some _ => None
  | None =>
    match NewRequest m rawURL (bodyReader f) with
    | inr _ => None
    | inl req0 =>
      let req := setHeaders (headers f) req0 in
      match Do req with
      | inr _ => None
      | inl resp =>
        match ReadAll resp with
        | inr _ => None
        | inl body =>
          if shouldSave f (StatusCode resp) body then
            let p := artifactPath (outputDir f) (reqURL req) m rawURL (requestBody f) (headers f) in
            let buf := serialise m rawURL (headers f) (requestBody f) resp
                                 (mapRange (Header resp)) body in
            match MkdirAll (path_Dir p), WriteFile p buf with
            | None, None => Some (p, buf)
            | _, _ => None
            end
          else None
        end
      end
    end
  end.

(** The paths of the files that the tasks of [lines] write. *)
Definition artifactPaths `{Runtime} (f : Flags) (m : string) (lines : list string) : gset string :=
  list_to_set (omap (fun u => fst <$> artifactOf f m u) lines).

(** A request is built for the line and handed to the client. *)
Definition requestable `{Runtime} (f : Flags) (m rawURL : string) : bool :=
  match ParseRequestURI rawURL with
  | Some _ => false
  | None => match NewRequest m rawURL (bodyReader f) with inl _ => true | inr _ => false end
  end.

(** The failures a task reports, and the text that starts each report
    (lines 141, 158, 167, 206 and 244). *)
Inductive Failure := CreateRequest | RequestFailed | ReadBody | CreateDir | WriteContents.

Definition diagnostic (k : Failure) : string :=
  match k with
  | CreateRequest => "failed to create request: "
  | RequestFailed => "request failed: "
  | ReadBody => "failed to read body: "
  | CreateDir => "failed to create dir: "
  | WriteContents => "failed to write file contents: "
  end.

(** ** White space and the ignore policies *)

(** The six bytes of ASCII white space. *)
Definition asciiSpace (c : ascii) : bool :=
  let b := byte_of c in
  ((b =? 9) || (b =? 10) || (b =? 11) || (b =? 12) || (b =? 13) || (b =? 32))%Z.

(** The flags [f] with the two ignore policies switched off. *)
Definition withoutIgnore (f : Flags) : Flags :=
  {| requestBody := requestBody f; saveResponses := saveResponses f; match_ := match_ f;
     outputDir := outputDir f; headers := headers f; saveStatus := saveStatus f;
     ignoreHTMLFiles := false; ignoreEmpty := false |}.

(** ** Path elements *)

Definition noSlash (c : ascii) : bool := negb (isSlash c).

(** A path element that is a name: not empty, without slash, and not
    starting with a dot (so neither [.] nor [..]). *)
Definition pathName (e : string) : bool :=
  match e with
  | "" => false
  | String c _ => negb (isDot c) && allBytes noSlash e
  end.

(** ** The runes of [utf8.DecodeRune], byte by byte *)

(** The values of a byte, and those of a continuation byte. *)
Definition allByteValues : list Z := map Z.of_nat (seq 0 256).
Definition contByteValues : list Z := map Z.of_nat (seq 128 64).

(** [r] is a white space character and [e] its encoding. *)
Definition listed (r : Z) (e : string) : bool :=
  existsb (Z.eqb r) whiteSpace && (utf8_encoding r =? e)%string.

(** A byte below [RuneSelf] that is white space is listed. *)
Definition checkRune1 : bool :=
  forallb (fun p0 => implb ((p0 <? utf8.RuneSelf)%Z && unicode_IsSpace p0)
                           (listed p0 (String (char p0) ""))) allByteValues.

(** For the leading byte [p0], along the branches of [utf8.DecodeRune]: a
    rune of two or three bytes that is white space is listed with these
    bytes, and no rune of four bytes is white space. *)
Definition checkRune (p0 : Z) : bool :=
  match utf8.first p0 with
  | None => true
  | Some (sz, lo, hi) =>
    forallb (fun b1 =>
      if ((b1 <? lo) || (hi <? b1))%Z then true
      else if (sz <=? 2)%nat then
        let r := Z.lor (Z.shiftl (Z.land p0 0x1F) 6) (Z.land b1 0x3F) in
        implb (unicode_IsSpace r) (listed r (String (char p0) (String (char b1) "")))
      else
        forallb (fun b2 =>
          if negb (utf8.cont b2) then true
          else if (sz <=? 3)%nat then
            let r := Z.lor (Z.lor (Z.shiftl (Z.land p0 0x0F) 12) (Z.shiftl (Z.land b1 0x3F) 6))
                           (Z.land b2 0x3F) in
            implb (unicode_IsSpace r)
                  (listed r (String (char p0) (String (char b1) (String (char b2) ""))))
          else
            forallb (fun b3 =>
              if negb (utf8.cont b3) then true
              else negb (unicode_IsSpace
                     (Z.lor (Z.lor (Z.lor (Z.shiftl (Z.land p0 0x07) 18)
                                          (Z.shiftl (Z.land b1 0x3F) 12))
                                   (Z.shiftl (Z.land b2 0x3F) 6)) (Z.land b3 0x3F))))
              contByteValues)
          contByteValues)
      allByteValues
  end.

(** A continuation byte. *)
Definition contByte (c : ascii) : bool := utf8.cont (byte_of c).

(** * Test vectors

    The library models on entries of the test tables of the Go packages,
    and the program on scenarios 1 and 3 of the specification. *)

Example sha1_abc : fmt_x (sha1.Sum "abc") = "a9993e364706816aba3e25717850c26c9cd0d89d".
Proof. vm_compute. reflexivity. Qed.

Example sha1_empty : fmt_x (sha1.Sum "") = "da39a3ee5e6b4b0d3255bfef95601890afd80709".
Proof. vm_compute. reflexivity. Qed.

Example sha1_two_blocks :
  fmt_x (sha1.Sum "abcdbcdecdefdefgefghfghighijhijkijkljklmklmnlmnomnopnopq")
  = "84983e441c3bd26ebaae4aa1f95129e5e54670f1".
Proof. vm_compute. reflexivity. Qed.

Example Clean_dotdot :
  path_Clean "abc/def/../../../ghi/jkl/../../../mno" = "../../mno".
Proof. vm_compute. reflexivity. Qed.

Example Clean_rooted : path_Clean "/abc/def/../../.." = "/".
Proof. vm_compute. reflexivity. Qed.

Example Clean_slashes : path_Clean "abc//def//ghi/" = "abc/def/ghi".
Proof. vm_compute. reflexivity. Qed.

Example Clean_empty : path_Clean "" = ".".
Proof. vm_compute. reflexivity. Qed.

Example Join_empty_element : path_Join ["a"; ""; "b"]%string = "a/b".
Proof. vm_compute. reflexivity. Qed.

Example Join_root : path_Join ["/"; "a"]%string = "/a".
Proof. vm_compute. reflexivity. Qed.

Example Dir_file : path_Dir "abc/def" = "abc".
Proof. vm_compute. reflexivity. Qed.

Example TrimSpace_ascii : bytes_TrimSpace (" " +:+ LF +:+ "a b " +:+ CR +:+ LF) = "a b".
Proof. vm_compute. reflexivity. Qed.

(** U+00A0 and U+2000 are white space. *)
Example TrimSpace_unicode :
  bytes_TrimSpace (String "194" (String "160" (String "226" (String "128" (String "128" "")))))
  = "".
Proof. vm_compute. reflexivity. Qed.

(** A byte that starts no rune is no white space. *)
Example TrimSpace_invalid : bytes_TrimSpace (String " " (String "194" "")) = String "194" "".
Proof. vm_compute. reflexivity. Qed.

Example SplitN_two : strings_SplitN2 "Host: a:b" ":" = ["Host"; " a:b"]%string.
Proof. vm_compute. reflexivity. Qed.

(** Scenario 1: no save flag, 404 with an empty body: one summary line, no
    file. *)
Example scenario1 :
  observable (@run exampleWorld defaultFlags ["http://example.com/"%string] (start "GET"))
  = ("http://example.com/ 404" +:+ LF, "", ∅,
     [{| reqMethod := "GET"; reqURL := exampleRoot; reqHeader := ∅; reqBody := None |}]).
Proof. vm_compute. reflexivity. Qed.

(** Scenario 3: [--ignore-html] and [--save], a body with [<HTML>]. *)
Example scenario3 :
  shouldSave
    {| requestBody := ""; saveResponses := true; match_ := ""; outputDir := "out";
       headers := []; saveStatus := []; ignoreHTMLFiles := true; ignoreEmpty := false |}
    200 "<!doctype html><HTML><body>hi</body></HTML>" = false.
Proof. vm_compute. reflexivity. Qed.

Example Atoi_status : strconv.Atoi "404" = (404%Z, None).
Proof. vm_compute. reflexivity. Qed.

Example Atoi_not_a_number : strconv.Atoi "4o4" = (0%Z, Some strconv.ErrSyntax).
Proof. vm_compute. reflexivity. Qed.

Example Atoi_out_of_range :
  strconv.Atoi "9223372036854775808" = (9223372036854775807%Z, Some strconv.ErrRange).
Proof. vm_compute. reflexivity. Qed.

Example encoding_one_byte : bytes_of (utf8_encoding 0x20) = [0x20]%Z.
Proof. vm_compute. reflexivity. Qed.

Example encoding_two_bytes : bytes_of (utf8_encoding 0xA0) = [0xC2; 0xA0]%Z.
Proof. vm_compute. reflexivity. Qed.

Example encoding_three_bytes : bytes_of (utf8_encoding 0x20AC) = [0xE2; 0x82; 0xAC]%Z.
Proof. vm_compute. reflexivity. Qed.

Example encoding_four_bytes : bytes_of (utf8_encoding 0x10348) = [0xF0; 0x90; 0x8D; 0x88]%Z.
Proof. vm_compute. reflexivity. Qed.

(** Two tasks that both find ["GET"] in [method] before either assigns
    ["POST"] write the files of the run of the two lines in turn. *)
Example goroutines_alternate :
  files (@interleave exampleWorld withBody (concat (repeat [0; 1]%nat 11))
           (spawn ["http://example.com/a"; "http://example.com/b"]%string, start "GET")).2
  = files (@run exampleWorld withBody ["http://example.com/a"; "http://example.com/b"]%string
                (start "GET")).
Proof. vm_compute. reflexivity. Qed.

(** * Properties *)

Arguments String.append : simpl nomatch.

(** ** Strings *)

Lemma app_empty_r (s : string) : s +:+ "" = s.
Proof. induction s as [|c s IH]; simpl; [reflexivity | now rewrite IH]. Qed.

Lemma app_assoc_s (a b c : string) : (a +:+ b) +:+ c = a +:+ b +:+ c.
Proof. induction a as [|x a IH]; simpl; [reflexivity | now rewrite IH]. Qed.

Lemma length_app_s (a b : string) :
  String.length (a +:+ b) = (String.length a + String.length b)%nat.
Proof. induction a as [|x a IH]; simpl; [reflexivity | now rewrite IH]. Qed.

Lemma length_zero (s : string) : (String.length s =? 0)%nat = true <-> s = "".
Proof. destruct s; simpl; split; intros; congruence. Qed.

(** Appends nested to the right, with the literal bytes pulled out. *)
Ltac str_norm :=
  unfold LF, CR; simpl; repeat (progress (rewrite ?app_assoc_s, ?app_empty_r; simpl)).

Lemma HasPrefix_spec (s p : string) :
  HasPrefix s p = true <-> exists post, s = p +:+ post.
Proof.
  revert s; induction p as [|x p IH]; intros s; simpl.
  - split; [exists s; reflexivity | reflexivity].
  - destruct s as [|c s].
    + split; [discriminate | intros [post E]; discriminate].
    + rewrite andb_true_iff, IH. split.
      * intros [Hc [post ->]]. apply Ascii.eqb_eq in Hc as ->. now exists post.
      * intros [post E]. injection E as -> ->. split; [apply Ascii.eqb_refl | now exists post].
Qed.

Lemma bytes_Contains_spec (b sub : string) :
  bytes_Contains b sub = true <-> Substring sub b.
Proof.
  unfold Substring. induction b as [|c b IH].
  - simpl. rewrite orb_false_r, HasPrefix_spec. split.
    + intros [post E]. now exists "", post.
    + intros [[|x pre] [post E]]; [now exists post | discriminate].
  - cbn [bytes_Contains]. rewrite orb_true_iff, HasPrefix_spec, IH. split.
    + intros [[post E] | [pre [post E]]].
      * now exists "", post.
      * exists (String c pre), post. simpl. now rewrite E.
    + intros [[|x pre] [post E]].
      * left. now exists post.
      * right. simpl in E. injection E as -> ->. now exists pre, post.
Qed.

(** ** The save decision *)

Lemma Includes_spec (s : list Z) (x : Z) : Includes s x = true <-> In x s.
Proof.
  induction s as [|y s IH]; simpl.
  - split; [discriminate | tauto].
  - destruct (Z.eqb_spec y x) as [->|Hne].
    + split; auto.
    + rewrite IH. split; [auto | intros [E|H]; [congruence | exact H]].
Qed.

Lemma HasPrefixFold_spec (s lit : string) :
  HasPrefixFold s lit = true
  <-> exists w post, s = w +:+ post /\ foldString w = foldString lit.
Proof.
  revert s; induction lit as [|p lit IH]; intros s; simpl.
  - split; [exists "", s; split; reflexivity | reflexivity].
  - destruct s as [|c s].
    + split; [discriminate | intros [[|x w] [post [E F]]]; discriminate].
    + rewrite andb_true_iff, IH. split.
      * intros [Hc [w [post [-> F]]]]. apply Ascii.eqb_eq in Hc.
        exists (String c w), post. simpl. rewrite Hc, F. split; reflexivity.
      * intros [[|x w] [post [E F]]]; [discriminate|].
        simpl in E, F. injection E as -> ->. injection F as Fc Fw.
        split; [rewrite Fc; apply Ascii.eqb_refl | now exists w, post].
Qed.

Lemma regexp_MatchFold_spec (lit b : string) :
  regexp_MatchFold lit b = true
  <-> exists pre w post, b = pre +:+ w +:+ post /\ foldString w = foldString lit.
Proof.
  induction b as [|c b IH].
  - simpl. rewrite orb_false_r, HasPrefixFold_spec. split.
    + intros [w [post [E F]]]. now exists "", w, post.
    + intros [[|x pre] [w [post [E F]]]]; [now exists w, post | discriminate].
  - cbn [regexp_MatchFold]. rewrite orb_true_iff, HasPrefixFold_spec, IH. split.
    + intros [[w [post [E F]]] | [pre [w [post [E F]]]]].
      * now exists "", w, post.
      * exists (String c pre), w, post. simpl. now rewrite E.
    + intros [[|x pre] [w [post [E F]]]].
      * left. now exists w, post.
      * right. simpl in E. injection E as -> ->. now exists pre, w, post.
Qed.

(** *** The case of letters *)

Lemma char_byte_of (c : ascii) : char (byte_of c) = c.
Proof. unfold char, byte_of. rewrite N2Z.id. apply ascii_N_embedding. Qed.

Lemma byte_of_char (b : Z) : (0 <= b < 256)%Z -> byte_of (char b) = b.
Proof.
  intros Hb. unfold char, byte_of. rewrite N_ascii_embedding by lia. lia.
Qed.

Lemma byte_of_range (c : ascii) : (0 <= byte_of c < 256)%Z.
Proof. unfold byte_of. pose proof (N_ascii_bounded c). lia. Qed.

Lemma foldCase_capital (c : ascii) :
  foldCase c = if capital c then char (byte_of c + 32) else c.
Proof. destruct c as [[] [] [] [] [] [] [] []]; reflexivity. Qed.

Lemma capital_range (c : ascii) : capital c = true -> (65 <= byte_of c <= 90)%Z.
Proof. unfold capital. intros [H1 H2]%andb_true_iff. lia. Qed.

Lemma sameLetter_foldCase (a b : ascii) : sameLetter a b <-> foldCase a = foldCase b.
Proof.
  rewrite !foldCase_capital. split.
  - intros [-> | [[Ha E] | [Hb E]]]; [reflexivity| |].
    + pose proof (capital_range a Ha) as Ra. rewrite Ha, <- E, char_byte_of.
      assert (capital b = false) as -> by (unfold capital; lia). reflexivity.
    + pose proof (capital_range b Hb) as Rb. rewrite Hb, <- E, char_byte_of.
      assert (capital a = false) as -> by (unfold capital; lia). reflexivity.
  - destruct (capital a) eqn:Ha, (capital b) eqn:Hb; intros E.
    + left. apply capital_range in Ha, Hb.
      apply (f_equal byte_of) in E. rewrite !byte_of_char in E by lia.
      rewrite <- (char_byte_of a), <- (char_byte_of b). f_equal. lia.
    + right. left. split; [exact Ha|]. apply capital_range in Ha.
      rewrite <- E. rewrite byte_of_char; lia.
    + right. right. split; [exact Hb|]. apply capital_range in Hb.
      rewrite E. rewrite byte_of_char; lia.
    + now left.
Qed.

Lemma equalFold_foldString (s t : string) : equalFold s t <-> foldString s = foldString t.
Proof.
  split.
  - induction 1 as [|a b s t Hab _ IH]; [reflexivity|].
    simpl. apply sameLetter_foldCase in Hab. now rewrite Hab, IH.
  - revert t; induction s as [|a s IH]; intros [|b t] E; try discriminate; [constructor|].
    simpl in E. injection E as Ec Es. constructor; [now apply sameLetter_foldCase | now apply IH].
Qed.

Lemma isHTML_Match_spec (body : string) : isHTML_Match body = true <-> looksLikeHTML body.
Proof.
  unfold isHTML_Match, looksLikeHTML. rewrite regexp_MatchFold_spec.
  split; intros (pre & w & post & E & F); exists pre, w, post; (split; [exact E|]);
    now apply equalFold_foldString.
Qed.

(** *** White space *)

Lemma byte_of_in (c : ascii) : In (byte_of c) allByteValues.
Proof.
  unfold allByteValues. apply in_map_iff. exists (Z.to_nat (byte_of c)).
  pose proof (byte_of_range c). split; [lia|]. apply in_seq. lia.
Qed.

Lemma listed_spec (r : Z) (e : string) :
  listed r e = true -> In r whiteSpace /\ e = utf8_encoding r.
Proof.
  unfold listed. intros [Hr He]%andb_true_iff. split.
  - apply existsb_exists in Hr as [x [Hx E]]. apply Z.eqb_eq in E. now subst x.
  - symmetry. now apply String.eqb_eq.
Qed.

Lemma checkRune1_ok : checkRune1 = true.
Proof. vm_compute. reflexivity. Qed.

Lemma checkRune_ok : forallb checkRune allByteValues = true.
Proof. vm_cast_no_check (eq_refl true). Qed.

Lemma cont_in (b : Z) : utf8.cont b = true -> In b contByteValues.
Proof.
  unfold utf8.cont. intros [H1 H2]%andb_true_iff.
  apply Z.leb_le in H1, H2.
  unfold contByteValues. apply in_map_iff. exists (Z.to_nat b).
  split; [lia|]. apply in_seq. lia.
Qed.

Lemma utf8_encoding_cons (r : Z) : exists c e, utf8_encoding r = String c e.
Proof. unfold utf8_encoding. repeat destruct (_ <? _)%Z; eexists _, _; reflexivity. Qed.

(** A rune that [DecodeRune] finds to be white space stands in the list,
    and the bytes decoded are its encoding. *)
Lemma DecodeRune_space (s : string) (r : Z) (wid : nat) :
  utf8.DecodeRune s = (r, wid) -> unicode_IsSpace r = true ->
  In r whiteSpace
  /\ exists rest, s = utf8_encoding r +:+ rest /\ wid = String.length (utf8_encoding r).
Proof.
  destruct s as [|c0 p1]; [intros [= <- <-]; discriminate|].
  unfold utf8.DecodeRune.
  destruct (byte_of c0 <? utf8.RuneSelf)%Z eqn:Hself.
  { intros [= <- <-] Hsp.
    pose proof checkRune1_ok as C. unfold checkRune1 in C.
    rewrite forallb_forall in C. specialize (C _ (byte_of_in c0)).
    rewrite Hself, Hsp, char_byte_of in C. apply listed_spec in C as [Hin He].
    split; [exact Hin|]. exists p1. rewrite <- He. split; reflexivity. }
  pose proof checkRune_ok as C. rewrite forallb_forall in C.
  specialize (C _ (byte_of_in c0)). unfold checkRune in C.
  destruct (utf8.first (byte_of c0)) as [[[sz lo] hi]|]; [|intros [= <- <-]; discriminate].
  destruct (String.length (String c0 p1) <? sz)%nat; [intros [= <- <-]; discriminate|].
  destruct p1 as [|c1 p2]; [intros [= <- <-]; discriminate|].
  rewrite forallb_forall in C. specialize (C _ (byte_of_in c1)).
  destruct ((byte_of c1 <? lo) || (hi <? byte_of c1))%Z; [intros [= <- <-]; discriminate|].
  destruct (sz <=? 2)%nat.
  { intros [= <- <-] Hsp. cbv zeta in C. rewrite Hsp, !char_byte_of in C.
    apply listed_spec in C as [Hin He].
    split; [exact Hin|]. exists p2. rewrite <- He. split; reflexivity. }
  destruct p2 as [|c2 p3]; [intros [= <- <-]; discriminate|].
  destruct (utf8.cont (byte_of c2)) eqn:Hc2; cbn [negb]; [|intros [= <- <-]; discriminate].
  rewrite forallb_forall in C. specialize (C _ (cont_in _ Hc2)).
  rewrite Hc2 in C. cbn [negb] in C.
  destruct (sz <=? 3)%nat.
  { intros [= <- <-] Hsp. cbv zeta in C. rewrite Hsp, !char_byte_of in C.
    apply listed_spec in C as [Hin He].
    split; [exact Hin|]. exists p3. rewrite <- He. split; reflexivity. }
  destruct p3 as [|c3 p4]; [intros [= <- <-]; discriminate|].
  destruct (utf8.cont (byte_of c3)) eqn:Hc3; cbn [negb]; [|intros [= <- <-]; discriminate].
  rewrite forallb_forall in C. specialize (C _ (cont_in _ Hc3)).
  rewrite Hc3 in C. cbn [negb] in C.
  intros [= <- <-] Hsp. rewrite Hsp in C. discriminate.
Qed.

(** Conversely, the encoding of a white space rune decodes to it. *)
Lemma DecodeRune_whiteSpace (r : Z) (rest : string) :
  In r whiteSpace ->
  utf8.DecodeRune (utf8_encoding r +:+ rest) = (r, String.length (utf8_encoding r))
  /\ unicode_IsSpace r = true.
Proof.
  intros Hr. simpl in Hr.
  repeat (destruct Hr as [<- | Hr]; [split; reflexivity|]). contradiction.
Qed.

Lemma blank_app (a b : string) : blank a -> blank b -> blank (a +:+ b).
Proof.
  intros Ha Hb. induction Ha as [|r s Hr Hs IH]; [exact Hb|].
  rewrite app_assoc_s. now apply blank_rune.
Qed.

Lemma blank_encoding (r : Z) : In r whiteSpace -> blank (utf8_encoding r).
Proof.
  intros Hr. rewrite <- (app_empty_r (utf8_encoding r)). apply blank_rune; [exact Hr | apply blank_end].
Qed.

(** *** The left end *)

Lemma TrimLeftFunc_skip (f : Z -> bool) (x y : string) :
  bytes_TrimLeftFunc_from f (String.length x) (x +:+ y) = bytes_TrimLeftFunc_from f 0 y.
Proof.
  induction x as [|c x IH]; [reflexivity|]. exact IH.
Qed.

Lemma TrimLeft_blank (s : string) : blank s -> bytes_TrimLeftFunc s unicode_IsSpace = "".
Proof.
  unfold bytes_TrimLeftFunc. induction 1 as [|r s Hr Hs IH]; [reflexivity|].
  destruct (DecodeRune_whiteSpace r s Hr) as [Hd Hsp].
  destruct (utf8_encoding_cons r) as (c & e & E). rewrite E in *.
  cbn [String.append bytes_TrimLeftFunc_from] in *. rewrite Hd, Hsp.
  cbn [String.length]. rewrite Nat.sub_succ, Nat.sub_0_r. now rewrite TrimLeftFunc_skip.
Qed.

Lemma TrimLeft_empty (n : nat) (s : string) :
  (String.length s <= n)%nat -> bytes_TrimLeftFunc s unicode_IsSpace = "" -> blank s.
Proof.
  unfold bytes_TrimLeftFunc. revert s; induction n as [|n IH]; intros s Hn.
  - destruct s; [intros _; apply blank_end | simpl in Hn; lia].
  - destruct s as [|c0 s1]; [intros _; apply blank_end|].
    cbn [bytes_TrimLeftFunc_from].
    destruct (utf8.DecodeRune (String c0 s1)) as [r wid] eqn:Hd.
    destruct (unicode_IsSpace r) eqn:Hsp; [|discriminate].
    destruct (DecodeRune_space _ _ _ Hd Hsp) as (Hr & rest & Es & Ew).
    destruct (utf8_encoding_cons r) as (c & e & E). rewrite E in Es, Ew.
    cbn [String.append String.length] in Es, Ew. injection Es as -> ->. subst wid.
    rewrite Nat.sub_succ, Nat.sub_0_r, TrimLeftFunc_skip. intros Ht.
    change (String c (e +:+ rest)) with (String c e +:+ rest). rewrite <- E.
    apply blank_rune; [exact Hr|]. apply IH; [|exact Ht].
    simpl in Hn. rewrite length_app_s in Hn. lia.
Qed.

(** What is left starts with a rune that is no white space. *)
Lemma TrimLeft_first (skip : nat) (s : string) :
  let t := bytes_TrimLeftFunc_from unicode_IsSpace skip s in
  t = "" \/ unicode_IsSpace (fst (utf8.DecodeRune t)) = false.
Proof.
  revert skip; induction s as [|c s IH]; intros skip; [now left|].
  cbn [bytes_TrimLeftFunc_from]. destruct skip as [|k]; [|apply IH].
  destruct (utf8.DecodeRune (String c s)) as [r wid] eqn:Hd.
  destruct (unicode_IsSpace r) eqn:Hsp; [apply IH|].
  right. cbv zeta. now rewrite Hd.
Qed.

(** *** The right end *)

Lemma substring_0_length (s : string) : substring 0 (String.length s) s = s.
Proof. induction s as [|c s IH]; simpl; [reflexivity | now rewrite IH]. Qed.

Lemma length_substring_0 (n : nat) (s : string) :
  (n <= String.length s)%nat -> String.length (substring 0 n s) = n.
Proof.
  revert s; induction n as [|n IH]; intros s Hn; [now destruct s|].
  destruct s as [|c s]; simpl in *; [lia|]. rewrite IH; lia.
Qed.

Lemma length_substring_le (m n : nat) (s : string) :
  (String.length (substring m n s) <= n)%nat.
Proof.
  revert m n; induction s as [|c s IH]; intros m n.
  - destruct m, n; simpl; lia.
  - destruct m as [|m]; [|apply IH].
    destruct n as [|n]; simpl; [lia|]. specialize (IH 0%nat n). lia.
Qed.

Lemma substring_split (m : nat) (s : string) :
  (m <= String.length s)%nat ->
  s = substring 0 m s +:+ substring m (String.length s - m) s.
Proof.
  revert s; induction m as [|m IH]; intros s Hm.
  - rewrite Nat.sub_0_r, substring_0_length. now destruct s.
  - destruct s as [|c s]; simpl in *; [lia|]. f_equal. apply IH. lia.
Qed.

Lemma substring_prefix (n : nat) (s a b : string) :
  substring 0 n s = a +:+ b -> substring 0 (String.length a) s = a.
Proof.
  revert n s; induction a as [|x a IH]; intros n s E; [now destruct s|].
  destruct s as [|c s]; [destruct n; discriminate|].
  destruct n as [|n]; [discriminate|].
  simpl in E. injection E as -> E. simpl. f_equal. now apply (IH n).
Qed.

(** The last byte of a string that is not empty. *)
Lemma last_byte (p : string) :
  p <> "" ->
  exists pre c, p = pre +:+ String c ""
                /\ utf8.at_ p (Z.of_nat (String.length p) - 1) = byte_of c.
Proof.
  induction p as [|x p IH]; [congruence|]. intros _.
  destruct p as [|y p].
  - exists "", x. split; reflexivity.
  - destruct IH as (pre & c & E & A); [discriminate|].
    exists (String x pre), c. split; [simpl; now rewrite <- E|].
    rewrite <- A. unfold utf8.at_.
    replace (Z.to_nat (Z.of_nat (String.length (String x (String y p))) - 1))
      with (S (Z.to_nat (Z.of_nat (String.length (String y p)) - 1)))
      by (simpl String.length; lia).
    reflexivity.
Qed.

Lemma DecodeLastRune_space (p : string) (r : Z) (size : nat) :
  utf8.DecodeLastRune p = (r, size) -> unicode_IsSpace r = true ->
  In r whiteSpace
  /\ exists pre, p = pre +:+ utf8_encoding r /\ size = String.length (utf8_encoding r).
Proof.
  unfold utf8.DecodeLastRune.
  destruct (String.length p =? 0)%nat eqn:Hz; [intros [= <- <-]; discriminate|].
  apply Nat.eqb_neq in Hz.
  destruct (last_byte p) as (pre & c & Ep & Ea); [intros ->; now apply Hz|].
  rewrite Ea.
  destruct (byte_of c <? utf8.RuneSelf)%Z eqn:Hself.
  { intros [= <- <-] Hsp.
    pose proof checkRune1_ok as C. unfold checkRune1 in C.
    rewrite forallb_forall in C. specialize (C _ (byte_of_in c)).
    rewrite Hself, Hsp, char_byte_of in C. apply listed_spec in C as [Hin He].
    split; [exact Hin|]. exists pre. rewrite <- He. split; [exact Ep | reflexivity]. }
  cbv zeta.
  set (start := Z.to_nat _).
  destruct (utf8.DecodeRune (substring start (String.length p - start) p)) as [r0 size0] eqn:Hd.
  destruct (start + size0 =? String.length p)%nat eqn:Hend; cbn [negb];
    [|intros [= <- <-]; discriminate].
  apply Nat.eqb_eq in Hend.
  intros [= <- <-] Hsp.
  destruct (DecodeRune_space _ _ _ Hd Hsp) as (Hr & rest & Es & Ew).
  split; [exact Hr|].
  pose proof (length_substring_le start (String.length p - start) p) as Hl.
  rewrite Es, length_app_s, <- Ew in Hl.
  assert (rest = "") as -> by (destruct rest; [reflexivity | simpl in Hl; lia]).
  rewrite app_empty_r in Es.
  exists (substring 0 start p). split; [|exact Ew].
  rewrite <- Es. apply substring_split. lia.
Qed.

Lemma lastIndexFunc_None (s : string) (i skip : nat) :
  (i <= String.length s)%nat ->
  bytes_lastIndexFunc_from unicode_IsSpace s skip i = None ->
  blank (substring 0 (i - skip) s).
Proof.
  revert skip; induction i as [|i IH]; intros skip Hi.
  - intros _. simpl. destruct s; apply blank_end.
  - cbn [bytes_lastIndexFunc_from]. destruct skip as [|k].
    + destruct (utf8.DecodeLastRune (substring 0 (S i) s)) as [r size] eqn:Hd.
      destruct (unicode_IsSpace r) eqn:Hsp; [|discriminate].
      intros Hn. apply IH in Hn; [|lia].
      destruct (DecodeLastRune_space _ _ _ Hd Hsp) as (Hr & pre & Es & Ew).
      pose proof (length_substring_0 (S i) s Hi) as Hl.
      rewrite Es, length_app_s, <- Ew in Hl.
      destruct (utf8_encoding_cons r) as (c & e & E).
      assert (Hsz : (1 <= size)%nat) by (rewrite Ew, E; simpl; lia).
      replace (i - (size - 1))%nat with (String.length pre) in Hn by lia.
      rewrite (substring_prefix _ _ _ _ Es) in Hn.
      rewrite Nat.sub_0_r, Es. apply blank_app; [exact Hn | now apply blank_encoding].
    + intros Hn. apply IH in Hn; [|lia]. exact Hn.
Qed.

Lemma DecodeRune_width (s : string) : s <> "" -> (1 <= snd (utf8.DecodeRune s))%nat.
Proof.
  destruct s as [|c0 s]; [congruence|]. intros _. unfold utf8.DecodeRune.
  repeat match goal with
         | |- context [match ?x with _ => _ end] => destruct x; cbn [snd]; try lia
         end.
Qed.

Lemma substring_0_S (n : nat) (s : string) : s <> "" -> substring 0 (S n) s <> "".
Proof. destruct s; [congruence | discriminate]. Qed.

Lemma TrimRight_empty (s : string) :
  bytes_TrimRightFunc s unicode_IsSpace = "" -> blank s.
Proof.
  destruct (string_dec s "") as [->|Hne]; [intros _; apply blank_end|].
  unfold bytes_TrimRightFunc.
  destruct (bytes_lastIndexFunc_from unicode_IsSpace s 0 (String.length s)) as [i|] eqn:Hl.
  - intros E. exfalso.
    destruct (utf8.RuneSelf <=? utf8.at_ s (Z.of_nat i))%Z.
    + destruct i as [|i].
      * rewrite Nat.sub_0_r, substring_0_length in E.
        pose proof (DecodeRune_width s Hne) as Hw.
        destruct (snd (utf8.DecodeRune s)) as [|w]; [lia|].
        now apply (substring_0_S w s).
      * now apply (substring_0_S (i + snd (utf8.DecodeRune
                     (substring (S i) (String.length s - S i) s))) s).
    + rewrite Nat.add_1_r in E. now apply (substring_0_S i s).
  - intros _. apply lastIndexFunc_None in Hl; [|lia].
    now rewrite Nat.sub_0_r, substring_0_length in Hl.
Qed.

(** [bytes.TrimSpace] leaves nothing exactly of a body made of white
    space. *)
Lemma TrimSpace_empty_iff (body : string) : bytes_TrimSpace body = "" <-> blank body.
Proof.
  unfold bytes_TrimSpace. split.
  - intros E. apply TrimRight_empty in E.
    destruct (TrimLeft_first 0 body) as [Ht | Hf];
      [now apply (TrimLeft_empty (String.length body))|].
    unfold bytes_TrimLeftFunc in E.
    remember (bytes_TrimLeftFunc_from unicode_IsSpace 0 body) as t eqn:Et.
    destruct E as [|r s Hr Hs].
    + now apply (TrimLeft_empty (String.length body)).
    + exfalso. destruct (DecodeRune_whiteSpace r s Hr) as [Hd Hsp].
      rewrite Hd in Hf. cbn [fst] in Hf. congruence.
  - intros Hb. now rewrite TrimLeft_blank.
Qed.

(** *** The trimmed body *)

Lemma append_cancel_l (a b c : string) : a +:+ b = a +:+ c -> b = c.
Proof. induction a as [|x a IH]; simpl; [auto|]. intros [= E]. auto. Qed.

Lemma append_eq_append (a b c d : string) :
  a +:+ b = c +:+ d ->
  (exists x, c = a +:+ x /\ b = x +:+ d) \/ (exists x, a = c +:+ x /\ d = x +:+ b).
Proof.
  revert c; induction a as [|y a IH]; intros c E.
  - left. exists c. now split.
  - destruct c as [|z c].
    + right. exists (String y a). now split.
    + simpl in E. injection E as -> E. destruct (IH _ E) as [(x & -> & ->) | (x & -> & ->)].
      * left. now exists x.
      * right. now exists x.
Qed.

Lemma blank_inv (s : string) :
  blank s -> s <> "" -> exists r s', In r whiteSpace /\ s = utf8_encoding r +:+ s' /\ blank s'.
Proof. intros [|r s' Hr Hs] Hne; [congruence|]. now exists r, s'. Qed.

Lemma encoding_unique (r1 r2 : Z) (a b : string) :
  In r1 whiteSpace -> In r2 whiteSpace ->
  utf8_encoding r1 +:+ a = utf8_encoding r2 +:+ b -> r1 = r2 /\ a = b.
Proof.
  intros H1 H2 E.
  destruct (DecodeRune_whiteSpace r1 a H1) as [D1 _].
  destruct (DecodeRune_whiteSpace r2 b H2) as [D2 _].
  rewrite E, D2 in D1. injection D1 as <- _. split; [reflexivity|].
  now apply append_cancel_l in E.
Qed.

Lemma blank_cancel_l (l x : string) : blank l -> blank (l +:+ x) -> blank x.
Proof.
  induction 1 as [|r l Hr Hl IH]; [auto|].
  rewrite app_assoc_s. intros Hb.
  destruct (utf8_encoding_cons r) as (c & e & E).
  destruct (blank_inv _ Hb) as (r' & s' & Hr' & Es & Hs'); [rewrite E; discriminate|].
  apply encoding_unique in Es as [<- <-]; auto.
Qed.

(** The first byte of an encoding is no continuation byte, the others
    are. *)
Lemma encoding_bytes (r : Z) (c : ascii) (e : string) :
  In r whiteSpace -> utf8_encoding r = String c e ->
  contByte c = false /\ allBytes contByte e = true.
Proof.
  intros Hr. simpl in Hr.
  repeat (destruct Hr as [<- | Hr]; [intros [= <- <-]; split; reflexivity|]). contradiction.
Qed.

Lemma allBytes_app (p : ascii -> bool) (a b : string) :
  allBytes p (a +:+ b) = allBytes p a && allBytes p b.
Proof. induction a as [|x a IH]; simpl; [reflexivity|]. now rewrite IH, andb_assoc. Qed.

Lemma Trimmed_not_blank (body t : string) : Trimmed body t -> t <> "" -> ~ blank body.
Proof.
  intros (l & r & -> & Hl & Hr & Hs & _) Hne Hb.
  apply blank_cancel_l in Hb; [|exact Hl].
  destruct (blank_inv _ Hb) as (r0 & s & Hr0 & E & Hs0); [destruct t; [congruence | discriminate]|].
  destruct (append_eq_append _ _ _ _ E) as [(x & Ex & Er) | (x & Et & _)].
  - destruct x as [|y x].
    + apply Hs. exists r0, "". rewrite app_empty_r in *. split; [exact Hr0 | now symmetry].
    + destruct t as [|c t]; [congruence|].
      simpl in Ex. destruct (encoding_bytes r0 c (t +:+ String y x) Hr0 Ex) as [_ Hc].
      rewrite allBytes_app in Hc. apply andb_true_iff in Hc as [_ Hc].
      simpl in Hc. apply andb_true_iff in Hc as [Hy _].
      destruct (blank_inv _ Hr) as (r1 & s1 & Hr1 & E1 & _); [rewrite Er; discriminate|].
      destruct (utf8_encoding_cons r1) as (c1 & e1 & Ee). rewrite Er, Ee in E1.
      simpl in E1. injection E1 as -> _.
      destruct (encoding_bytes r1 c1 e1 Hr1 Ee) as [Hn _]. congruence.
  - apply Hs. now exists r0, x.
Qed.

Lemma startsBlank_dec (t : string) : startsBlank t \/ ~ startsBlank t.
Proof.
  destruct (existsb (fun r => HasPrefix t (utf8_encoding r)) whiteSpace) eqn:E.
  - left. apply existsb_exists in E as (r & Hr & Hp).
    apply HasPrefix_spec in Hp as [x ->]. now exists r, x.
  - right. intros (r & x & Hr & ->).
    apply not_true_iff_false in E. apply E.
    apply existsb_exists. exists r. split; [exact Hr|].
    apply HasPrefix_spec. now exists x.
Qed.

Lemma substring_app_r (a b : string) :
  substring (String.length a) (String.length b) (a +:+ b) = b.
Proof. induction a as [|x a IH]; simpl; [apply substring_0_length | exact IH]. Qed.

Lemma endsBlank_dec (t : string) : endsBlank t \/ ~ endsBlank t.
Proof.
  set (ends := fun r =>
         (String.length (utf8_encoding r) <=? String.length t)%nat
         && (substring (String.length t - String.length (utf8_encoding r))
                       (String.length (utf8_encoding r)) t =? utf8_encoding r)%string).
  destruct (existsb ends whiteSpace) eqn:E.
  - left. apply existsb_exists in E as (r & Hr & He). unfold ends in He.
    apply andb_true_iff in He as [Hl He]. apply Nat.leb_le in Hl. apply String.eqb_eq in He.
    pose (k := (String.length t - String.length (utf8_encoding r))%nat).
    assert (Hk1 : (k <= String.length t)%nat) by (unfold k; lia).
    assert (Hk2 : String.length (utf8_encoding r) = (String.length t - k)%nat)
      by (unfold k; lia).
    fold k in He. exists r, (substring 0 k t). split; [exact Hr|].
    rewrite <- He, Hk2. now apply substring_split.
  - right. intros (r & x & Hr & ->).
    apply not_true_iff_false in E. apply E.
    apply existsb_exists. exists r. split; [exact Hr|]. unfold ends.
    rewrite length_app_s. apply andb_true_iff. split; [apply Nat.leb_le; lia|].
    replace (String.length x + String.length (utf8_encoding r)
             - String.length (utf8_encoding r))%nat with (String.length x) by lia.
    rewrite substring_app_r. apply String.eqb_refl.
Qed.

Lemma encoding_length (r : Z) : (1 <= String.length (utf8_encoding r))%nat.
Proof. destruct (utf8_encoding_cons r) as (c & e & ->). simpl. lia. Qed.

Lemma trim_left_exists (n : nat) (x : string) :
  (String.length x <= n)%nat -> exists l t, x = l +:+ t /\ blank l /\ ~ startsBlank t.
Proof.
  revert x; induction n as [|n IH]; intros x Hn.
  - destruct x; [|simpl in Hn; lia]. exists "", "". split; [reflexivity|].
    split; [constructor|]. intros (r & y & _ & E).
    destruct (utf8_encoding_cons r) as (c & e & Ee). rewrite Ee in E. discriminate.
  - destruct (startsBlank_dec x) as [(r & y & Hr & ->) | Hx].
    + pose proof (encoding_length r). rewrite length_app_s in Hn.
      destruct (IH y) as (l & t & -> & Hl & Ht); [lia|].
      exists (utf8_encoding r +:+ l), t. rewrite app_assoc_s.
      split; [reflexivity|]. split; [now constructor | exact Ht].
    + exists "", x. split; [reflexivity|]. split; [constructor | exact Hx].
Qed.

Lemma trim_right_exists (n : nat) (x : string) :
  (String.length x <= n)%nat -> exists t r, x = t +:+ r /\ blank r /\ ~ endsBlank t.
Proof.
  revert x; induction n as [|n IH]; intros x Hn.
  - destruct x; [|simpl in Hn; lia]. exists "", "". split; [reflexivity|].
    split; [constructor|]. intros (r & y & _ & E).
    destruct (utf8_encoding_cons r) as (c & e & Ee). rewrite Ee in E.
    destruct y; discriminate.
  - destruct (endsBlank_dec x) as [(r & y & Hr & ->) | Hx].
    + pose proof (encoding_length r). rewrite length_app_s in Hn.
      destruct (IH y) as (t & r' & -> & Hr' & Ht); [lia|].
      exists t, (r' +:+ utf8_encoding r). rewrite app_assoc_s.
      split; [reflexivity|]. split; [|exact Ht].
      apply blank_app; [exact Hr' | now apply blank_encoding].
    + exists x, "". rewrite app_empty_r. split; [reflexivity|]. split; [constructor | exact Hx].
Qed.

(** Something is left of a body when it is trimmed exactly when the body
    is not made of white space only. *)
Lemma Trimmed_nonempty_iff (body : string) :
  (exists t, Trimmed body t /\ t <> "") <-> ~ blank body.
Proof.
  split.
  - intros (t & Ht & Hne). now apply (Trimmed_not_blank body t).
  - intros Hb.
    destruct (trim_left_exists (String.length body) body) as (l & t1 & -> & Hl & Hs); [lia|].
    destruct (trim_right_exists (String.length t1) t1) as (t & r & -> & Hr & He); [lia|].
    exists t. split.
    + exists l, r. split; [reflexivity|]. split; [exact Hl|]. split; [exact Hr|].
      split; [|exact He].
      intros (r0 & x & Hr0 & ->). apply Hs. exists r0, (x +:+ r). split; [exact Hr0|].
      now rewrite app_assoc_s.
    + intros ->. apply Hb. simpl. now apply blank_app.
Qed.

Lemma negb_true_not (b : bool) (P : Prop) : (b = true <-> P) -> (negb b = true <-> ~ P).
Proof. intros H. destruct b; simpl; split; intros; try tauto; try discriminate.
  intros HP. apply H in HP. discriminate. Qed.

Lemma step1_spec (f : Flags) (status : Z) :
  saveResponses f || (0 <? List.length (saveStatus f))%nat && Includes (saveStatus f) status = true
  <-> specStep1 f status.
Proof.
  unfold specStep1. rewrite orb_true_iff, andb_true_iff, Includes_spec, Nat.ltb_lt.
  split; (intros [H | [H1 H2]]; [left; exact H | right; split; [|exact H2]]).
  - intros E. rewrite E in H1. simpl in H1. lia.
  - destruct (saveStatus f); [contradiction | simpl; lia].
Qed.

Lemma shouldSave_policies_spec (f : Flags) (status : Z) (body : string) :
  shouldSave_policies f status body = true <-> specStep3 f status body.
Proof.
  unfold shouldSave_policies, specStep3, specStep2.
  pose proof (step1_spec f status) as H1.
  pose proof (negb_true_not _ _ (isHTML_Match_spec body)) as H2.
  pose proof (negb_true_not _ _ (length_zero (bytes_TrimSpace body))) as H3.
  rewrite TrimSpace_empty_iff, <- Trimmed_nonempty_iff in H3.
  destruct (ignoreHTMLFiles f), (ignoreEmpty f);
    rewrite ?andb_true_iff, ?H1, ?H2, ?H3; tauto.
Qed.

Lemma shouldSave_spec (f : Flags) (status : Z) (body : string) :
  shouldSave f status body = true <-> specStep4 f status body.
Proof.
  unfold shouldSave, specStep4. rewrite <- shouldSave_policies_spec.
  destruct (String.eqb_spec (match_ f) "") as [E|E]; simpl.
  - split; [auto | intros [[H _]|H]; [contradiction | exact H]].
  - destruct (bytes_Contains body (match_ f)) eqn:C.
    + apply bytes_Contains_spec in C. split; auto.
    + split; [auto | intros [[_ H]|H]; [|exact H]].
      apply bytes_Contains_spec in H. congruence.
Qed.

(** C1: the save decision follows the ordered algorithm of the
    specification. After the two ignore policies the variable [shouldSave]
    is true exactly when step 3 of the specification holds: save-all or a
    non-empty status list holding the response status; with ignore-HTML,
    moreover no part of the body that is [<html] up to the case of its
    letters; with ignore-empty, moreover a non-empty trimmed body, the
    body without the white space at its two ends. The decision that is
    tested adds only the match override of step 4. Both are functions of
    the flags, the status and the body alone. *)
Theorem save_decision_follows_spec (f : Flags) (status : Z) (body : string) :
  (shouldSave_policies f status body = true <-> specStep3 f status body)
  /\ (shouldSave f status body = true <-> specStep4 f status body).
Proof. split; [apply shouldSave_policies_spec | apply shouldSave_spec]. Qed.

(** C2: with a non-empty match string that occurs in the body, the decision
    is true, whatever save-all, the status list and the two ignore flags
    say. *)
Theorem match_overrides (f : Flags) (status : Z) (body : string) :
  match_ f <> "" -> Substring (match_ f) body -> shouldSave f status body = true.
Proof.
  intros Hne Hsub. unfold shouldSave.
  apply String.eqb_neq in Hne. rewrite Hne. simpl.
  apply bytes_Contains_spec in Hsub. now rewrite Hsub.
Qed.

Lemma match_overrides_witness :
  shouldSave_policies scenario4 200 "foobar" = false
  /\ shouldSave scenario4 200 "foobar" = true.
Proof.
  split; [reflexivity|].
  apply (match_overrides scenario4 200 "foobar").
  - discriminate.
  - exists "", "bar". reflexivity.
Defined.

(** ** The artifact key *)

Lemma length_be_bytes (n : nat) (x : Z) : List.length (sha1.be_bytes n x) = n.
Proof. induction n as [|n IH]; simpl; [reflexivity | now rewrite IH]. Qed.

Lemma length_sha1_Sum (data : string) : List.length (sha1.Sum data) = 20%nat.
Proof. unfold sha1.Sum. rewrite !length_app, !length_be_bytes. reflexivity. Qed.

Lemma length_fmt_x (bs : list Z) : String.length (fmt_x bs) = (2 * List.length bs)%nat.
Proof. induction bs as [|b bs IH]; simpl; [reflexivity | rewrite IH; lia]. Qed.

Lemma lowerHex_hexdigit (n : Z) : lowerHex (hexdigit n) = true.
Proof.
  destruct n as [|p|p]; try reflexivity.
  do 4 (try (destruct p as [p|p|]; try reflexivity)).
Qed.

Lemma lowerHex_fmt_x (bs : list Z) : allBytes lowerHex (fmt_x bs) = true.
Proof.
  induction bs as [|b bs IH]; [reflexivity|].
  cbn [fmt_x allBytes]. now rewrite !lowerHex_hexdigit, IH.
Qed.

(** ** The last element of a joined path *)

Lemma rev_app_rev_app (e out acc : string) :
  String.rev_app (String.rev_app e out) acc = String.rev_app out (e +:+ acc).
Proof.
  revert out; induction e as [|c e IH]; intros out; simpl; [reflexivity|].
  now rewrite IH.
Qed.

Lemma rev_app_append (a b : string) : String.rev_app a b = String.rev a +:+ b.
Proof.
  unfold String.rev. revert b; induction a as [|c a IH]; intros b; simpl; [reflexivity|].
  rewrite IH, (IH (String c "")), app_assoc_s. reflexivity.
Qed.

(** The inner loop copies an element without slash to the buffer. *)
Lemma cleanLoop_copy (rooted : bool) (e out : string) (dotdot : nat) :
  allBytes plainByte e = true ->
  cleanLoop rooted true e out dotdot = String.rev_app e out.
Proof.
  revert out; induction e as [|c e IH]; intros out; simpl; [reflexivity|].
  intros [Hc He]%andb_true_iff. unfold plainByte in Hc.
  apply andb_true_iff in Hc as [Hs _]. apply negb_true_iff in Hs. rewrite Hs.
  now apply IH.
Qed.

Lemma cleanLoop_element (rooted : bool) (e out : string) (dotdot : nat) :
  allBytes plainByte e = true ->
  cleanLoop rooted false e out dotdot
  = match e with "" => out | _ => String.rev_app e (withSlash rooted out) end.
Proof.
  destruct e as [|c e]; [reflexivity|]. intros He. generalize He. simpl.
  intros [Hc He']%andb_true_iff. unfold plainByte in Hc.
  apply andb_true_iff in Hc as [Hs Hd].
  apply negb_true_iff in Hs, Hd. rewrite Hs, Hd. simpl.
  destruct e as [|c1 e]; [reflexivity|].
  now rewrite cleanLoop_copy.
Qed.






Lemma length_rev_app (a b : string) :
  String.length (String.rev_app a b) = (String.length a + String.length b)%nat.
Proof.
  revert b; induction a as [|c a IH]; intros b; simpl; [reflexivity|].
  rewrite IH. simpl. lia.
Qed.

Lemma rev_rev_app (e out : string) : String.rev (String.rev_app e out) = String.rev out +:+ e.
Proof.
  unfold String.rev at 1. now rewrite rev_app_rev_app, app_empty_r, rev_app_append.
Qed.






Lemma lowerHex_plainByte (c : ascii) : lowerHex c = true -> plainByte c = true.
Proof. destruct c as [[] [] [] [] [] [] [] []]; vm_compute; intros; congruence. Qed.

Lemma allBytes_impl (p q : ascii -> bool) (s : string) :
  (forall c, p c = true -> q c = true) -> allBytes p s = true -> allBytes q s = true.
Proof.
  intros Hpq. induction s as [|c s IH]; simpl; [reflexivity|].
  intros [Hc Hs]%andb_true_iff. now rewrite (Hpq c Hc), IH.
Qed.



(** ** The artifact text *)

Lemma joinLines_app (l1 l2 : list string) :
  joinLines (l1 ++ l2) = joinLines l1 +:+ joinLines l2.
Proof.
  induction l1 as [|x l1 IH]; simpl; [reflexivity|].
  now rewrite IH, app_assoc_s.
Qed.

(** A loop that writes one string per element appends their lines. *)
Lemma fold_WriteString {A : Type} (g : A -> string) (l : list A) (buf : string) :
  fold_left (fun buf x => WriteString buf (g x)) l buf = buf +:+ joinLines (map g l).
Proof.
  revert buf; induction l as [|x l IH]; intros buf; simpl.
  - now rewrite app_empty_r.
  - rewrite IH. unfold WriteString. now rewrite app_assoc_s.
Qed.

Lemma fold_headerBlocks (visited : list (string * list string)) (buf : string) :
  fold_left (fun buf kvs =>
      fold_left (fun buf v => WriteString buf ("< " +:+ fst kvs +:+ ": " +:+ v +:+ LF))
                (snd kvs) buf) visited buf
  = buf +:+ joinLines (responseHeaderLines visited).
Proof.
  revert buf; induction visited as [|kvs visited IH]; intros buf; simpl.
  - now rewrite app_empty_r.
  - rewrite IH, (fold_WriteString (fun v => "< " +:+ fst kvs +:+ ": " +:+ v +:+ LF)).
    unfold responseHeaderLines at 2. simpl. fold (responseHeaderLines visited).
    now rewrite joinLines_app, app_assoc_s.
Qed.

Lemma serialise_layout (method rawURL : string) (headers : list string) (requestBody : string)
    (resp : Response) (visited : list (string * list string)) (responseBody : string) :
  serialise method rawURL headers requestBody resp visited responseBody
  = layout method rawURL headers requestBody resp visited responseBody.
Proof.
  unfold serialise, layout.
  rewrite fold_headerBlocks, (fold_WriteString (fun h => "> " +:+ h +:+ LF)).
  unfold WriteString, requestHeaderLines.
  destruct (requestBody =? "")%string; str_norm; reflexivity.
Qed.

Lemma length_responseHeaderLines (visited : list (string * list string)) :
  List.length (responseHeaderLines visited)
  = list_sum (map (fun kvs => List.length (snd kvs)) visited).
Proof.
  induction visited as [|kvs visited IH]; simpl; [reflexivity|].
  unfold responseHeaderLines in *. simpl.
  rewrite length_app, IH. unfold headerBlock. now rewrite length_map.
Qed.

(** C4: the text written for an artifact is the layout of the
    specification: the line [METHOD rawURL] and a blank line; one [> header]
    line for each header string and then a blank line, also without
    headers; the request body and a blank line after it only when the body
    is not empty; [< proto status]; one [< Name: value] line for each value
    of each response header visited; CR LF; the response body as it is. *)
Theorem artifact_text_layout (method rawURL : string) (headers : list string)
    (requestBody : string) (resp : Response) (visited : list (string * list string))
    (responseBody : string) :
  serialise method rawURL headers requestBody resp visited responseBody
  = method +:+ " " +:+ rawURL +:+ LF
    +:+ LF
    +:+ joinLines (map (fun h => "> " +:+ h +:+ LF) headers)
    +:+ LF
    +:+ (if (requestBody =? "")%string then "" else requestBody +:+ LF +:+ LF)
    +:+ "< " +:+ Proto resp +:+ " " +:+ Status resp +:+ LF
    +:+ joinLines (flat_map (fun kvs =>
          map (fun v => "< " +:+ fst kvs +:+ ": " +:+ v +:+ LF) (snd kvs)) visited)
    +:+ CR +:+ LF
    +:+ responseBody
  /\ List.length (responseHeaderLines visited)
     = list_sum (map (fun kvs => List.length (snd kvs)) visited).
Proof. split; [apply serialise_layout | apply length_responseHeaderLines]. Qed.

(** ** The artifact text and the order of the response headers *)

Lemma serialise_split (method rawURL : string) (headers : list string) (requestBody : string)
    (resp : Response) (visited : list (string * list string)) (responseBody : string) :
  serialise method rawURL headers requestBody resp visited responseBody
  = artifactHead method rawURL headers requestBody resp
    +:+ joinLines (responseHeaderLines visited) +:+ artifactTail responseBody.
Proof.
  rewrite serialise_layout. unfold layout, artifactHead, artifactTail.
  destruct (requestBody =? "")%string; str_norm; reflexivity.
Qed.

Lemma rangeOrder_small (m : gmap string (list string)) (o1 o2 : list (string * list string)) :
  rangeOrder m o1 -> rangeOrder m o2 -> size m <= 1 -> o1 = o2.
Proof.
  unfold rangeOrder. intros H1 H2 Hs.
  rewrite <- length_map_to_list in Hs.
  destruct (map_to_list m) as [|x [|y l]]; simpl in Hs; [| |lia].
  - apply Permutation_nil_r in H1, H2. congruence.
  - apply Permutation_singleton_r in H1, H2. congruence.
Qed.

Lemma rangeOrder_typeFirst : rangeOrder (Header twoHeaders) typeFirst.
Proof.
  unfold rangeOrder, twoHeaders, typeFirst; simpl.
  rewrite map_to_list_insert by reflexivity.
  now rewrite map_to_list_singleton.
Qed.

Lemma rangeOrder_serverFirst : rangeOrder (Header twoHeaders) serverFirst.
Proof.
  unfold rangeOrder. rewrite <- rangeOrder_typeFirst. apply perm_swap.
Qed.

(** C5, as stated, fails: the same request and the same response, with the
    two header names visited in the two possible orders, give two different
    texts. *)
Lemma artifact_text_depends_on_range_order :
  rangeOrder (Header twoHeaders) typeFirst
  /\ rangeOrder (Header twoHeaders) serverFirst
  /\ serialise "GET" "http://example.com/" [] "" twoHeaders typeFirst "ok"
     <> serialise "GET" "http://example.com/" [] "" twoHeaders serverFirst "ok".
Proof.
  split; [apply rangeOrder_typeFirst|]. split; [apply rangeOrder_serverFirst|].
  vm_compute. discriminate.
Qed.

(** C5, amended: for the same request and the same response, two texts
    agree on everything before and after the response header lines; their
    response header lines are the same blocks, one for each header name with
    the values of that name in the order of the response, but the blocks
    stand in the order in which the map was visited; with at most one
    header name the two texts are the same bytes. *)
Theorem artifact_text_up_to_header_order (method rawURL : string) (headers : list string)
    (requestBody : string) (resp : Response) (responseBody : string)
    (o1 o2 : list (string * list string)) :
  rangeOrder (Header resp) o1 -> rangeOrder (Header resp) o2 ->
  serialise method rawURL headers requestBody resp o1 responseBody
    = artifactHead method rawURL headers requestBody resp
      +:+ joinLines (flat_map headerBlock o1) +:+ artifactTail responseBody
  /\ serialise method rawURL headers requestBody resp o2 responseBody
    = artifactHead method rawURL headers requestBody resp
      +:+ joinLines (flat_map headerBlock o2) +:+ artifactTail responseBody
  /\ map headerBlock o1 ≡ₚ map headerBlock (map_to_list (Header resp))
  /\ map headerBlock o2 ≡ₚ map headerBlock o1
  /\ (size (Header resp) <= 1 ->
      serialise method rawURL headers requestBody resp o1 responseBody
      = serialise method rawURL headers requestBody resp o2 responseBody).
Proof.
  intros H1 H2.
  split; [apply serialise_split|]. split; [apply serialise_split|].
  split; [now apply Permutation_map|].
  split; [apply Permutation_map; unfold rangeOrder in *; now rewrite H1, H2|].
  intros Hs. now rewrite (rangeOrder_small _ _ _ H1 H2 Hs).
Qed.

Lemma artifact_text_up_to_header_order_witness :
  rangeOrder (Header twoHeaders) typeFirst
  /\ rangeOrder (Header twoHeaders) serverFirst
  /\ map headerBlock serverFirst ≡ₚ map headerBlock typeFirst.
Proof.
  pose proof rangeOrder_typeFirst as H1. pose proof rangeOrder_serverFirst as H2.
  split; [exact H1|]. split; [exact H2|].
  apply (artifact_text_up_to_header_order "GET" "http://example.com/" [] "" twoHeaders "ok"
           typeFirst serverFirst H1 H2).
Defined.

(** ** The path normaliser *)

Lemma replaceRuns_inRun (r s : string) :
  allBytes outside r = true -> replaceRuns true (r +:+ s) = replaceRuns true s.
Proof.
  induction r as [|c r IH]; simpl; [reflexivity|].
  unfold outside at 1. intros [Hc Hr]%andb_true_iff.
  apply negb_true_iff in Hc. rewrite Hc. now apply IH.
Qed.

Lemma replaceRuns_run (r s : string) :
  r <> "" -> allBytes outside r = true -> runEnds s ->
  replaceRuns false (r +:+ s) = String "-" (replaceRuns false s).
Proof.
  destruct r as [|c r]; [congruence|]. intros _ H Hs. simpl in *.
  unfold outside at 1 in H. apply andb_true_iff in H as [Hc Hr].
  apply negb_true_iff in Hc. rewrite Hc. simpl.
  rewrite replaceRuns_inRun by exact Hr.
  destruct s as [|d s]; [reflexivity|]. simpl in *. now rewrite Hs.
Qed.

Lemma RunsReplaced_replaceRuns (s : string) :
  RunsReplaced s (replaceRuns false s)
  /\ forall r, r <> "" -> allBytes outside r = true ->
       RunsReplaced (r +:+ s) (String "-" (replaceRuns true s)).
Proof.
  induction s as [|c s [IH1 IH2]].
  - split; [constructor|]. intros r Hr Ho. simpl.
    apply RunsReplaced_run; [assumption..|exact I|constructor].
  - simpl. destruct (pathByte c) eqn:Hc.
    + split; [now constructor|]. intros r Hr Ho.
      apply RunsReplaced_run; [assumption..|exact Hc|now constructor].
    + assert (Hout : allBytes outside (String c "") = true).
      { simpl. unfold outside. now rewrite Hc. }
      split.
      * apply (IH2 (String c "")); [discriminate | exact Hout].
      * intros r Hr Ho.
        replace (r +:+ String c s) with ((r +:+ String c "") +:+ s)
          by now rewrite app_assoc_s.
        apply IH2.
        -- destruct r; discriminate.
        -- clear -Ho Hout. induction r as [|x r IH]; simpl in *; [exact Hout|].
           apply andb_true_iff in Ho as [Hx Hr]. now rewrite Hx, IH.
Qed.

Lemma RunsReplaced_unique (s t : string) : RunsReplaced s t -> replaceRuns false s = t.
Proof.
  induction 1 as [|c s t Hc _ IH|r s t Hr Ho Hs _ IH].
  - reflexivity.
  - simpl. now rewrite Hc, IH.
  - now rewrite replaceRuns_run, IH.
Qed.

Lemma replaceRuns_allowed (s : string) :
  allBytes pathByte s = true -> replaceRuns false s = s.
Proof.
  induction s as [|c s IH]; simpl; [reflexivity|].
  intros [Hc Hs]%andb_true_iff. now rewrite Hc, IH.
Qed.

(** C6: the path normaliser is a function of the path of the URL: its
    result is the path with every maximal run of bytes outside
    [a-zA-Z0-9/._-] replaced by a single [-], and nothing else is such a
    result; ["/a b!!c"] becomes ["/a-b-c"]; a path with bytes of the class
    only is returned unchanged. *)
Theorem normalisePath_replaces_runs :
  (forall u t, RunsReplaced (Path u) t <-> normalisePath u = t)
  /\ normalisePath {| Hostname := "example.com"; Path := "/a b!!c" |} = "/a-b-c"
  /\ (forall u, allBytes pathByte (Path u) = true -> normalisePath u = Path u).
Proof.
  split; [|split].
  - intros u t. unfold normalisePath. split.
    + apply RunsReplaced_unique.
    + intros <-. apply RunsReplaced_replaceRuns.
  - reflexivity.
  - intros u. apply replaceRuns_allowed.
Qed.

(** ** The artifact path of scenario 2 *)

(** C7, as stated, fails: the normalised root path is not the empty string,
    and the path of the artifact has no double slash before the digest. *)
Lemma scenario2_path_has_no_double_slash :
  normalisePath exampleRoot <> ""
  /\ artifactPath "out" exampleRoot "GET" "http://example.com/" "" []
     <> "out/example.com//" +:+ fmt_x (artifactKey "GET" "http://example.com/" "" []).
Proof. split; vm_compute; discriminate. Qed.

(** C7, amended: for the line ["http://example.com/"] with [--save], the
    normalised root path is ["/"], and the path of the artifact is
    [path.Join] of [out], [example.com], ["/"] and the hexadecimal key,
    which is [out/example.com/<digest>] with single slashes; the run writes
    its file there and prints that path. *)
Theorem scenario2_artifact_path :
  normalisePath exampleRoot = "/"
  /\ artifactPath "out" exampleRoot "GET" "http://example.com/" "" []
     = path_Join ["out"; "example.com"; "/";
                  fmt_x (artifactKey "GET" "http://example.com/" "" [])]
  /\ artifactPath "out" exampleRoot "GET" "http://example.com/" "" []
     = "out/example.com/" +:+ fmt_x (artifactKey "GET" "http://example.com/" "" [])
  /\ fmt_x (artifactKey "GET" "http://example.com/" "" [])
     = "628735d3a16b67b1dd5fbfbd10a15f2c28362bbd"
  /\ dom (files (@run exampleWorld scenario2 ["http://example.com/"%string] (start "GET")))
     = {[ "out/example.com/628735d3a16b67b1dd5fbfbd10a15f2c28362bbd" ]}
  /\ stdout (@run exampleWorld scenario2 ["http://example.com/"%string] (start "GET"))
     = "out/example.com/628735d3a16b67b1dd5fbfbd10a15f2c28362bbd: http://example.com/ 404"
       +:+ LF.
Proof.
  split; [reflexivity|]. split; [reflexivity|].
  split; [vm_compute; reflexivity|]. split; [vm_compute; reflexivity|].
  split; [|vm_compute; reflexivity].
  assert (E : files (@run exampleWorld scenario2 ["http://example.com/"%string] (start "GET"))
            = {[ "out/example.com/628735d3a16b67b1dd5fbfbd10a15f2c28362bbd" :=
                 serialise "GET" "http://example.com/" [] "" notFound
                           (map_to_list (Header notFound)) "" ]}).
  { vm_compute. reflexivity. }
  rewrite E. apply dom_singleton_L.
Qed.

(** ** The task: method, invalid lines, headers without a colon *)

Section Task.
Context `{Runtime}.

Lemma method_upgradeMethod (f : Flags) (st : State) :
  method (upgradeMethod f st) = effectiveMethod f (method st).
Proof.
  unfold upgradeMethod, effectiveMethod.
  destruct (requestBody f =? "")%string; simpl; [reflexivity|].
  destruct (method st =? "GET")%string; reflexivity.
Qed.

Lemma effectiveMethod_idem (f : Flags) (m : string) :
  effectiveMethod f (effectiveMethod f m) = effectiveMethod f m.
Proof.
  unfold effectiveMethod.
  destruct (requestBody f =? "")%string; simpl; [reflexivity|].
  destruct (m =? "GET")%string eqn:E; [reflexivity | now rewrite E].
Qed.

Lemma upgradeMethod_idem (f : Flags) (st : State) :
  upgradeMethod f (upgradeMethod f st) = upgradeMethod f st.
Proof.
  unfold upgradeMethod.
  destruct (requestBody f =? "")%string; simpl; [reflexivity|].
  destruct (method st =? "GET")%string eqn:E; simpl; [reflexivity | now rewrite E].
Qed.

Lemma observable_upgradeMethod (f : Flags) (st : State) :
  observable (upgradeMethod f st) = observable st.
Proof.
  unfold upgradeMethod.
  destruct (requestBody f =? "")%string; simpl; [reflexivity|].
  destruct (method st =? "GET")%string; reflexivity.
Qed.

Lemma method_taskFrom (f : Flags) (rawURL : string) (st : State) :
  method (taskFrom f rawURL st) = method st.
Proof.
  unfold taskFrom.
  repeat match goal with
         | |- context [match ?x with _ => _ end] => destruct x; simpl; try reflexivity
         end.
Qed.

Lemma method_task (f : Flags) (rawURL : string) (st : State) :
  method (task f rawURL st) = effectiveMethod f (method st).
Proof. unfold task. now rewrite method_taskFrom, method_upgradeMethod. Qed.

Lemma task_upgradeMethod (f : Flags) (rawURL : string) (st : State) :
  task f rawURL (upgradeMethod f st) = task f rawURL st.
Proof. unfold task. now rewrite upgradeMethod_idem. Qed.

Lemma run_app (f : Flags) (l1 l2 : list string) (st : State) :
  run f (l1 ++ l2) st = run f l2 (run f l1 st).
Proof. unfold run. apply fold_left_app. Qed.



(** *** The tasks as goroutines *)
















(** *** What a task does with the method *)

(** The request that a task hands to the client. *)
Lemma task_sends (f : Flags) (rawURL : string) (st : State) (req0 : Request) :
  ParseRequestURI rawURL = None ->
  NewRequest (effectiveMethod f (method st)) rawURL (bodyReader f) = inl req0 ->
  sent (task f rawURL st) = sent st ++ [setHeaders (headers f) req0].
Proof.
  intros Hp Hn. unfold task.
  assert (Hs : sent (upgradeMethod f st) = sent st).
  { pose proof (observable_upgradeMethod f st) as O. unfold observable in O. now injection O. }
  rewrite <- Hs. rewrite <- method_upgradeMethod in Hn. clear Hs.
  generalize dependent (upgradeMethod f st). intros st1 Hn.
  unfold taskFrom, taskRequest. rewrite Hp, Hn. cbv zeta.
  repeat match goal with
         | |- context [match ?x with _ => _ end] =>
           destruct x; cbn [sent Printf Eprintf written handed]
         end; reflexivity.
Qed.

(** The file that a task writes. *)
Lemma task_writes (f : Flags) (rawURL : string) (st : State) (req0 : Request)
    (resp : Response) (body : string) :
  let m := effectiveMethod f (method st) in
  let req := setHeaders (headers f) req0 in
  let p := artifactPath (outputDir f) (reqURL req) m rawURL (requestBody f) (headers f) in
  let text := serialise m rawURL (headers f) (requestBody f) resp (mapRange (Header resp))
                        body in
  ParseRequestURI rawURL = None ->
  NewRequest m rawURL (bodyReader f) = inl req0 ->
  Do req = inl resp ->
  ReadAll resp = inl body ->
  shouldSave f (StatusCode resp) body = true ->
  MkdirAll (path_Dir p) = None ->
  WriteFile p text = None ->
  files (task f rawURL st) = <[p := text]> (files st).
Proof.
  intros m req p text Hp Hn Hd Hr Hs Hmk Hw. subst m req p text. unfold task.
  assert (Hf : files (upgradeMethod f st) = files st).
  { pose proof (observable_upgradeMethod f st) as O. unfold observable in O. now injection O. }
  rewrite <- Hf. rewrite <- method_upgradeMethod in *. clear Hf.
  generalize dependent (upgradeMethod f st). intros st1 Hn Hmk Hw.
  unfold taskFrom, taskRequest, taskPath, taskArtifact.
  rewrite Hp, Hn. cbv zeta. rewrite Hd, Hr, Hs. cbn [negb method handed].
  rewrite Hmk, Hw. reflexivity.
Qed.



Lemma task_invalid (f : Flags) (rawURL e : string) (st : State) :
  ParseRequestURI rawURL = Some e -> task f rawURL st = upgradeMethod f st.
Proof. intros E. unfold task, taskFrom. now rewrite E. Qed.

Lemma observable_run_upgradeMethod (f : Flags) (after : list string) (st : State) :
  observable (run f after (upgradeMethod f st)) = observable (run f after st).
Proof.
  destruct after as [|u after].
  - apply observable_upgradeMethod.
  - change (run f (u :: after) ?s) with (run f after (task f u s)).
    now rewrite task_upgradeMethod.
Qed.

(** C9: a line that [url.ParseRequestURI] rejects ends its task silently:
    nothing is added to standard output or standard error, no file is
    written, no request is handed to the client; and a run with the line
    shows the same output, errors, files and requests as the run without
    it, wherever the line stands. *)
Theorem invalid_line_is_silent (f : Flags) (rawURL e : string) :
  ParseRequestURI rawURL = Some e ->
  (forall st, stdout (task f rawURL st) = stdout st
              /\ stderr (task f rawURL st) = stderr st
              /\ files (task f rawURL st) = files st
              /\ sent (task f rawURL st) = sent st)
  /\ (forall before after st,
        observable (run f (before ++ rawURL :: after) st)
        = observable (run f (before ++ after) st)).
Proof.
  intros E. split.
  - intros st. rewrite (task_invalid f rawURL e st E).
    pose proof (observable_upgradeMethod f st) as O. unfold observable in O.
    now injection O.
  - intros before after st. rewrite !run_app.
    change (run f (rawURL :: after) ?s) with (run f after (task f rawURL s)).
    rewrite (task_invalid f rawURL e _ E). apply observable_run_upgradeMethod.
Qed.

End Task.


Lemma invalid_line_is_silent_witness :
  @ParseRequestURI exampleWorld "" = Some "empty url"
  /\ observable (@run exampleWorld scenario2 ["http://example.com/"; ""; "http://example.com/"]%string
                      (start "GET"))
     = observable (@run exampleWorld scenario2 ["http://example.com/"; "http://example.com/"]%string
                        (start "GET")).
Proof.
  split; [reflexivity|].
  apply (proj2 (@invalid_line_is_silent exampleWorld scenario2 "" "empty url" eq_refl)
           ["http://example.com/"%string] ["http://example.com/"%string] (start "GET")).
Defined.

Lemma cutAt_NoColon (h : string) : NoColon h -> cutAt ":" h = None.
Proof.
  unfold NoColon. induction h as [|c h IH]; intros Hn; simpl; [reflexivity|].
  destruct (Ascii.eqb_spec c ":") as [->|Hc].
  - exfalso. apply (Hn "" h). reflexivity.
  - rewrite IH; [reflexivity|].
    intros pre post E. apply (Hn (String c pre) post). simpl. now rewrite E.
Qed.

Lemma strings_Join_cons (h : string) (hs : list string) (sep : string) :
  strings_Join (h :: hs) sep = h +:+ joinedAfter hs sep.
Proof. destruct hs; simpl; [now rewrite app_empty_r | reflexivity]. Qed.

Lemma strings_Join_middle (hs1 : list string) (h : string) (hs2 : list string) (sep : string) :
  strings_Join (hs1 ++ h :: hs2) sep = joinedBefore hs1 sep +:+ h +:+ joinedAfter hs2 sep.
Proof.
  induction hs1 as [|x hs1 IH].
  - simpl app. now rewrite strings_Join_cons.
  - change ((x :: hs1) ++ h :: hs2) with (x :: (hs1 ++ h :: hs2)).
    rewrite strings_Join_cons.
    assert (E : joinedAfter (hs1 ++ h :: hs2) sep = sep +:+ strings_Join (hs1 ++ h :: hs2) sep)
      by (destruct hs1; reflexivity).
    rewrite E, IH. unfold joinedBefore at 2. rewrite strings_Join_cons.
    destruct hs1 as [|y hs1]; simpl joinedBefore; simpl joinedAfter;
      now rewrite ?app_assoc_s, ?app_empty_r.
Qed.

Lemma requestHeaderLines_middle (hs1 : list string) (h : string) (hs2 : list string) :
  joinLines (requestHeaderLines (hs1 ++ h :: hs2))
  = joinLines (requestHeaderLines hs1) +:+ ("> " +:+ h +:+ LF)
    +:+ joinLines (requestHeaderLines hs2).
Proof.
  unfold requestHeaderLines. rewrite map_app, joinLines_app. simpl.
  now rewrite !app_assoc_s.
Qed.

Section Headers.
Context `{Runtime}.

Lemma setHeader_NoColon (req : Request) (h : string) : NoColon h -> setHeader req h = req.
Proof. intros Hn. unfold setHeader, strings_SplitN2. now rewrite cutAt_NoColon. Qed.

(** The requests handed to the client after a task. *)
Lemma sent_task (f : Flags) (rawURL : string) (st : State) :
  sent (task f rawURL st)
  = match ParseRequestURI rawURL with
    | Some _ => sent st
    | None =>
      match taskRequest f rawURL (upgradeMethod f st) with
      | inr _ => sent st
      | inl req => sent st ++ [setHeaders (headers f) req]
      end
    end.
Proof.
  assert (Hu : sent (upgradeMethod f st) = sent st).
  { unfold upgradeMethod. destruct (negb _); [|reflexivity].
    destruct (method st =? "GET")%string; reflexivity. }
  unfold task, taskFrom. rewrite <- Hu.
  repeat match goal with
         | |- context [match ?x with _ => _ end] => destruct x; simpl; try reflexivity
         end.
Qed.

(** C10: a configured header string without a colon leaves the request as
    it is: the request that the task hands to the client is the one built
    from the other header strings, and the requests of a run are those of
    the run configured without the string. Yet the task hashes and writes
    it: the file stands at the path whose last element is the digest of
    the input with the string between its neighbours in the comma-joined
    header string, and the text of the file has its [> ] line after the
    lines of the header strings before it. *)
Theorem header_without_colon (h : string) (hs1 hs2 : list string) :
  NoColon h ->
  (forall req, setHeaders (hs1 ++ h :: hs2) req = setHeaders (hs1 ++ hs2) req)
  /\ (forall f rawURL st,
        sent (task (withHeaders (hs1 ++ h :: hs2) f) rawURL st)
        = sent (task (withHeaders (hs1 ++ hs2) f) rawURL st))
  /\ (forall f rawURL st req0 resp body,
        let m := effectiveMethod f (method st) in
        let req := setHeaders (hs1 ++ hs2) req0 in
        let p := path_Join [outputDir f; Hostname (reqURL req); normalisePath (reqURL req);
                            fmt_x (sha1.Sum (m +:+ rawURL +:+ requestBody f
                                             +:+ joinedBefore hs1 ", " +:+ h
                                             +:+ joinedAfter hs2 ", "))] in
        let text := serialise m rawURL (hs1 ++ h :: hs2) (requestBody f) resp
                              (mapRange (Header resp)) body in
        ParseRequestURI rawURL = None ->
        NewRequest m rawURL (bodyReader f) = inl req0 ->
        Do req = inl resp ->
        ReadAll resp = inl body ->
        shouldSave f (StatusCode resp) body = true ->
        MkdirAll (path_Dir p) = None ->
        WriteFile p text = None ->
        sent (task (withHeaders (hs1 ++ h :: hs2) f) rawURL st) = sent st ++ [req]
        /\ files (task (withHeaders (hs1 ++ h :: hs2) f) rawURL st) = <[p := text]> (files st)
        /\ exists rest,
             text = m +:+ " " +:+ rawURL +:+ LF +:+ LF +:+ joinLines (requestHeaderLines hs1)
                    +:+ "> " +:+ h +:+ LF +:+ rest).
Proof.
  intros Hn.
  assert (Hs : forall req, setHeaders (hs1 ++ h :: hs2) req = setHeaders (hs1 ++ hs2) req).
  { intros req. unfold setHeaders. rewrite !fold_left_app. simpl.
    now rewrite setHeader_NoColon. }
  split; [exact Hs|]. split.
  - intros f rawURL st. rewrite !sent_task. simpl headers.
    change (upgradeMethod (withHeaders (hs1 ++ h :: hs2) f) st) with (upgradeMethod f st).
    change (upgradeMethod (withHeaders (hs1 ++ hs2) f) st) with (upgradeMethod f st).
    destruct (ParseRequestURI rawURL); [reflexivity|].
    unfold taskRequest, bodyReader. simpl requestBody.
    destruct (NewRequest _ _ _); [now rewrite Hs | reflexivity].
  - intros f rawURL st req0 resp body m req p text Hp Hnew Hd Hr Hsave Hmk Hw.
    assert (Hreq : setHeaders (headers (withHeaders (hs1 ++ h :: hs2) f)) req0 = req)
      by apply Hs.
    split; [|split].
    + rewrite <- Hreq. now apply task_sends.
    + pose proof (task_writes (withHeaders (hs1 ++ h :: hs2) f) rawURL st req0 resp body) as W.
      cbv zeta in W. rewrite Hreq in W.
      assert (Hpath : artifactPath (outputDir (withHeaders (hs1 ++ h :: hs2) f)) (reqURL req)
                        (effectiveMethod (withHeaders (hs1 ++ h :: hs2) f) (method st))
                        rawURL (requestBody (withHeaders (hs1 ++ h :: hs2) f))
                        (headers (withHeaders (hs1 ++ h :: hs2) f)) = p).
      { subst p m. unfold artifactPath, artifactKey, hashInput, headerArgs_String.
        cbn [headers outputDir requestBody withHeaders].
        now rewrite strings_Join_middle. }
      rewrite Hpath in W. apply W; assumption.
    + subst text. rewrite serialise_layout. unfold layout.
      rewrite requestHeaderLines_middle. eexists. str_norm. reflexivity.
Qed.

End Headers.

Lemma header_without_colon_witness :
  NoColon "Broken"
  /\ sent (@task exampleWorld (withHeaders ["X-A: 1"; "Broken"]%string scenario2)
             "http://example.com/" (start "GET"))
     = [{| reqMethod := "GET"; reqURL := exampleRoot;
           reqHeader := {[ "X-A"%string := [" 1"%string] ]}; reqBody := None |}]
  /\ files (@task exampleWorld (withHeaders ["X-A: 1"; "Broken"]%string scenario2)
              "http://example.com/" (start "GET"))
     = {[ "out/example.com/" +:+ fmt_x (sha1.Sum "GEThttp://example.com/X-A: 1, Broken")
          := "GET http://example.com/" +:+ LF +:+ LF
             +:+ "> X-A: 1" +:+ LF +:+ "> Broken" +:+ LF +:+ LF
             +:+ "< HTTP/1.1 404 Not Found" +:+ LF +:+ "< Content-Length: 0" +:+ LF
             +:+ CR +:+ LF ]}.
Proof.
  assert (Hn : NoColon "Broken").
  { intros pre post E.
    assert (C : bytes_Contains "Broken" ":" = true)
      by (apply bytes_Contains_spec; now exists pre, post).
    vm_compute in C. discriminate. }
  split; [exact Hn|].
  destruct (@header_without_colon exampleWorld "Broken" ["X-A: 1"%string] [] Hn)
    as (_ & _ & Htask).
  destruct (Htask scenario2 "http://example.com/"%string (start "GET")
                  {| reqMethod := "GET"; reqURL := exampleRoot; reqHeader := ∅;
                     reqBody := None |}
                  notFound ""%string eq_refl eq_refl eq_refl eq_refl eq_refl eq_refl eq_refl)
    as (Hsent & Hfiles & _).
  cbn [app] in Hsent, Hfiles.
  split.
  - rewrite Hsent. vm_compute. reflexivity.
  - rewrite Hfiles. vm_compute. reflexivity.
Defined.

(** * Further properties

    Properties of the remaining code of [main.go] and of the paths of the
    task that the statements above leave out. *)

(** ** The task and the run *)

Lemma endsLF_LF : exists line, LF = line +:+ LF.
Proof. now exists "". Qed.

Lemma endsLF_app (a b : string) :
  (exists line, b = line +:+ LF) -> exists line, a +:+ b = line +:+ LF.
Proof. intros [line ->]. exists (a +:+ line). now rewrite app_assoc_s. Qed.

(** Takes the next [match] of the task apart. *)
Ltac task_step :=
  match goal with
  | |- context [match ?x with _ => _ end] =>
    destruct x eqn:?; cbn [stdout stderr files sent method Printf Eprintf written handed]
  end.

Ltac ends_LF := right; repeat apply endsLF_app; apply endsLF_LF.

Section Outcomes.
Context `{Runtime}.

Lemma stdout_upgradeMethod (f : Flags) (st : State) : stdout (upgradeMethod f st) = stdout st.
Proof. pose proof (observable_upgradeMethod f st) as O. unfold observable in O. now injection O. Qed.

Lemma stderr_upgradeMethod (f : Flags) (st : State) : stderr (upgradeMethod f st) = stderr st.
Proof. pose proof (observable_upgradeMethod f st) as O. unfold observable in O. now injection O. Qed.

Lemma files_upgradeMethod (f : Flags) (st : State) : files (upgradeMethod f st) = files st.
Proof. pose proof (observable_upgradeMethod f st) as O. unfold observable in O. now injection O. Qed.

Lemma task_outcome_cases (f : Flags) (rawURL : string) (st : State) :
  (stdout (task f rawURL st) = stdout st
   /\ stderr (task f rawURL st) = stderr st
   /\ files (task f rawURL st) = files st)
  \/ (exists k e,
        stderr (task f rawURL st) = stderr st +:+ diagnostic k +:+ e +:+ LF
        /\ stdout (task f rawURL st) = stdout st
        /\ files (task f rawURL st) = files st)
  \/ (exists line,
        stdout (task f rawURL st) = stdout st +:+ line +:+ LF
        /\ stderr (task f rawURL st) = stderr st).
Proof.
  unfold task.
  rewrite <- (stdout_upgradeMethod f st), <- (stderr_upgradeMethod f st),
    <- (files_upgradeMethod f st).
  generalize (upgradeMethod f st) as st1. intros st1. unfold taskFrom.
  repeat task_step;
    match goal with
    | |- (stdout ?a = stdout ?a /\ stderr ?a = stderr ?a /\ _) \/ _ =>
      left; repeat split; reflexivity
    | |- _ \/ _ \/ (exists line, stdout ?a +:+ ?x = _ /\ _) =>
      right; right;
      let E := fresh in
      assert (E : exists line, x = line +:+ LF) by (repeat apply endsLF_app; apply endsLF_LF);
      destruct E as [line E]; exists line; rewrite E; split; reflexivity
    | |- _ \/ (exists k e0, stderr ?a +:+ ?p +:+ ?msg +:+ LF = _ /\ _) \/ _ =>
      right; left;
      first [ exists CreateRequest, msg; repeat split; reflexivity
            | exists RequestFailed, msg; repeat split; reflexivity
            | exists ReadBody, msg; repeat split; reflexivity
            | exists CreateDir, msg; repeat split; reflexivity
            | exists WriteContents, msg; repeat split; reflexivity ]
    end.
Qed.

(** X1: a task ends in one of three ways: it prints nothing and writes
    nothing; or it writes one diagnostic, one of the five texts followed by
    the error and a newline, to standard error, and then prints no summary
    and writes no file; or it prints one summary line to standard output
    and nothing to standard error. *)
Theorem task_outcome (f : Flags) (rawURL : string) (st : State) :
  (stdout (task f rawURL st) = stdout st
   /\ stderr (task f rawURL st) = stderr st
   /\ files (task f rawURL st) = files st)
  \/ (exists k e,
        stderr (task f rawURL st) = stderr st +:+ diagnostic k +:+ e +:+ LF
        /\ stdout (task f rawURL st) = stdout st
        /\ files (task f rawURL st) = files st)
  \/ (exists line,
        stdout (task f rawURL st) = stdout st +:+ line +:+ LF
        /\ stderr (task f rawURL st) = stderr st).
Proof. apply task_outcome_cases. Qed.

(** X2: a summary line and a file go together. Either standard output and
    the files are as before; or a request was built, answered and read, no
    diagnostic was written, and then: with the decision false the line is
    [rawURL status] and no file is written; with the decision true the line
    is [path: rawURL status] and the file at that path holds the text of
    the artifact. *)
Theorem summary_line_and_file (f : Flags) (rawURL : string) (st : State) :
  (stdout (task f rawURL st) = stdout st /\ files (task f rawURL st) = files st)
  \/ exists req0 resp body,
       let m := effectiveMethod f (method st) in
       let req := setHeaders (headers f) req0 in
       let p := artifactPath (outputDir f) (reqURL req) m rawURL (requestBody f) (headers f) in
       NewRequest m rawURL (bodyReader f) = inl req0
       /\ Do req = inl resp
       /\ ReadAll resp = inl body
       /\ stderr (task f rawURL st) = stderr st
       /\ ((shouldSave f (StatusCode resp) body = false
            /\ stdout (task f rawURL st)
               = stdout st +:+ rawURL +:+ " " +:+ fmt_d (StatusCode resp) +:+ LF
            /\ files (task f rawURL st) = files st)
           \/ (shouldSave f (StatusCode resp) body = true
               /\ stdout (task f rawURL st)
                  = stdout st +:+ p +:+ ": " +:+ rawURL +:+ " " +:+ fmt_d (StatusCode resp)
                    +:+ LF
               /\ files (task f rawURL st)
                  = <[p := serialise m rawURL (headers f) (requestBody f) resp
                                     (mapRange (Header resp)) body]> (files st))).
Proof.
  unfold task.
  rewrite <- (stdout_upgradeMethod f st), <- (stderr_upgradeMethod f st),
    <- (files_upgradeMethod f st), <- (method_upgradeMethod f st).
  generalize (upgradeMethod f st) as st1. intros st1.
  unfold taskFrom, taskRequest, taskPath, taskArtifact.
  repeat task_step;
    match goal with
    | |- (stdout ?a = stdout ?a /\ files ?a = files ?a) \/ _ => left; split; reflexivity
    | _ => right; eexists _, _, _; cbv zeta;
           split; [reflexivity|]; do 2 (split; [eassumption|]); split; [reflexivity|]
    end.
  - left. split; [now apply negb_true_iff|]. split; [|reflexivity]. now rewrite ?app_assoc_s.
  - right. split; [now apply negb_false_iff|]. split; [|reflexivity]. now rewrite ?app_assoc_s.
Qed.

Lemma sent_upgradeMethod (f : Flags) (st : State) : sent (upgradeMethod f st) = sent st.
Proof. pose proof (observable_upgradeMethod f st) as O. unfold observable in O. now injection O. Qed.

Lemma files_task (f : Flags) (rawURL : string) (st : State) :
  files (task f rawURL st)
  = match artifactOf f (effectiveMethod f (method st)) rawURL with
    | Some (p, buf) => <[p := buf]> (files st)
    | None => files st
    end.
Proof.
  unfold task. rewrite <- (files_upgradeMethod f st), <- (method_upgradeMethod f st).
  generalize (upgradeMethod f st) as st1. intros st1.
  unfold taskFrom, artifactOf, taskRequest, taskPath, taskArtifact.
  destruct (ParseRequestURI rawURL); [reflexivity|].
  destruct (NewRequest _ _ _); [|reflexivity]. simpl.
  destruct (Do _); [|reflexivity].
  destruct (ReadAll _); [|reflexivity].
  destruct (shouldSave _ _ _); [|reflexivity]. simpl.
  destruct (MkdirAll _); [reflexivity|].
  destruct (WriteFile _ _); reflexivity.
Qed.

Lemma dom_files_run (f : Flags) (lines : list string) (st : State) :
  dom (files (run f lines st))
  = dom (files st) ∪ artifactPaths f (effectiveMethod f (method st)) lines.
Proof.
  revert st; induction lines as [|u lines IH]; intros st.
  - unfold artifactPaths. simpl. now rewrite union_empty_r_L.
  - change (run f (u :: lines) st) with (run f lines (task f u st)).
    rewrite IH, method_task, effectiveMethod_idem, files_task.
    unfold artifactPaths. simpl.
    destruct (artifactOf f (effectiveMethod f (method st)) u) as [[p buf]|]; simpl.
    + rewrite dom_insert_L.
      rewrite (union_comm_L {[p]}), <- union_assoc_L. reflexivity.
    + reflexivity.
Qed.

(** X5: the set of paths with a file after a run depends on which lines
    were read, not on their order nor on how often a line occurs. *)
Theorem written_paths_ignore_order (f : Flags) (lines1 lines2 : list string) (st : State) :
  (forall u, In u lines1 <-> In u lines2) ->
  dom (files (run f lines1 st)) = dom (files (run f lines2 st)).
Proof.
  intros Hl. rewrite !dom_files_run. f_equal.
  unfold artifactPaths. apply set_eq. intros p.
  rewrite !elem_of_list_to_set, !list_elem_of_omap.
  split; intros (u & Hu & E); exists u; (split; [|exact E]);
    apply list_elem_of_In; apply list_elem_of_In in Hu; now apply Hl.
Qed.

(** X3: a run only adds: what was on standard output and standard error
    stays as a prefix, the requests handed to the client so far stay as a
    prefix, and no path with a file loses its file. *)
Theorem run_only_adds (f : Flags) (lines : list string) (st : State) :
  exists out err reqs,
    stdout (run f lines st) = stdout st +:+ out
    /\ stderr (run f lines st) = stderr st +:+ err
    /\ sent (run f lines st) = sent st ++ reqs
    /\ dom (files st) ⊆ dom (files (run f lines st)).
Proof.
  revert st; induction lines as [|u lines IH]; intros st.
  - exists "", "", []. simpl. rewrite !app_empty_r, app_nil_r. repeat split. reflexivity.
  - change (run f (u :: lines) st) with (run f lines (task f u st)).
    destruct (IH (task f u st)) as (out & err & reqs & Ho & He & Hs & Hf).
    assert (Hos : exists s, (stdout (task f u st) = stdout st +:+ s
                             /\ stderr (task f u st) = stderr st)
                            \/ (stdout (task f u st) = stdout st
                                /\ stderr (task f u st) = stderr st +:+ s)).
    { destruct (task_outcome_cases f u st) as [(E1 & E2 & _) | [(k & e & E2 & E1 & _) | (l & E1 & E2)]].
      - exists "". left. now rewrite app_empty_r.
      - exists (diagnostic k +:+ e +:+ LF). now right.
      - exists (l +:+ LF). now left. }
    destruct Hos as [s Hos].
    assert (Hd : dom (files st) ⊆ dom (files (task f u st))).
    { rewrite files_task. destruct (artifactOf _ _ _) as [[p buf]|]; [|reflexivity].
      rewrite dom_insert_L. apply union_subseteq_r. }
    rewrite Ho, He, Hs, sent_task.
    assert (Hsent : exists r, match ParseRequestURI u with
        | Some _ => sent st
        | None => match taskRequest f u (upgradeMethod f st) with
                  | inl req => sent st ++ [setHeaders (headers f) req]
                  | inr _ => sent st end end = sent st ++ r).
    { destruct (ParseRequestURI u); [exists []; now rewrite app_nil_r|].
      destruct (taskRequest _ _ _); [eexists; reflexivity | exists []; now rewrite app_nil_r]. }
    destruct Hsent as [r ->].
    destruct Hos as [[E1 E2] | (E1 & E2)]; rewrite E1, E2.
    + exists (s +:+ out), err, (r ++ reqs).
      rewrite app_assoc_s, <- app_assoc. repeat split. now transitivity (dom (files (task f u st))).
    + exists out, (s +:+ err), (r ++ reqs).
      rewrite app_assoc_s, <- app_assoc. repeat split. now transitivity (dom (files (task f u st))).
Qed.

(** X4: a run hands exactly one request to the client for each line that
    [url.ParseRequestURI] accepts and for which [http.NewRequest] builds a
    request, and none for the other lines: there is no retry. *)
Theorem one_request_per_line (f : Flags) (lines : list string) (st : State) :
  List.length (sent (run f lines st))
  = (List.length (sent st)
     + List.length (filter (fun u => requestable f (effectiveMethod f (method st)) u = true)
                           lines))%nat.
Proof.
  revert st; induction lines as [|u lines IH]; intros st.
  - simpl. lia.
  - change (run f (u :: lines) st) with (run f lines (task f u st)).
    rewrite IH, method_task, effectiveMethod_idem, sent_task.
    unfold taskRequest. rewrite method_upgradeMethod.
    rewrite filter_cons.
    destruct (decide (requestable f (effectiveMethod f (method st)) u = true)) as [Hr|Hr];
      unfold requestable in Hr;
      destruct (ParseRequestURI u); try congruence;
      destruct (NewRequest _ _ _); try congruence;
      rewrite ?length_app; simpl; lia.
Qed.

End Outcomes.

(** ** The save decision *)

Lemma asciiSpace_rune (c : ascii) :
  asciiSpace c = true ->
  (byte_of c <? utf8.RuneSelf)%Z = true /\ unicode_IsSpace (byte_of c) = true.
Proof.
  unfold asciiSpace. intros Hc.
  repeat (apply orb_true_iff in Hc as [Hc|Hc]);
    apply Z.eqb_eq in Hc; rewrite Hc; split; reflexivity.
Qed.

Lemma TrimLeft_asciiSpace (s : string) :
  allBytes asciiSpace s = true -> bytes_TrimLeftFunc s unicode_IsSpace = "".
Proof.
  unfold bytes_TrimLeftFunc. induction s as [|c s IH]; [reflexivity|].
  intros [Hc Hs]%andb_true_iff. destruct (asciiSpace_rune c Hc) as [Hlt Hsp].
  cbn [bytes_TrimLeftFunc_from utf8.DecodeRune]. rewrite Hlt, Hsp.
  now apply IH.
Qed.

Lemma TrimSpace_asciiSpace (s : string) :
  allBytes asciiSpace s = true -> bytes_TrimSpace s = "".
Proof. intros Hs. unfold bytes_TrimSpace. now rewrite TrimLeft_asciiSpace. Qed.

(** X6: with [--ignore-empty], a body of ASCII white space only (the empty
    body too) is saved exactly when a non-empty match string occurs in it,
    whatever the status and the other flags. *)
Theorem blank_body_saved_by_match_only (f : Flags) (status : Z) (body : string) :
  ignoreEmpty f = true -> allBytes asciiSpace body = true ->
  shouldSave f status body = negb (match_ f =? "")%string && bytes_Contains body (match_ f).
Proof.
  intros Hi Hb. unfold shouldSave, shouldSave_policies.
  rewrite Hi, (TrimSpace_asciiSpace body Hb). simpl. rewrite andb_false_r.
  destruct (match_ f =? "")%string; simpl; [reflexivity|].
  now destruct (bytes_Contains body (match_ f)).
Qed.

(** X7: the ignore policies only turn a save into a skip: a response that
    is saved is saved with both policies off as well, and it is saved for
    one of three reasons: save-all, its status in the list, or the match
    string in its body. *)
Theorem ignore_policies_only_skip (f : Flags) (status : Z) (body : string) :
  shouldSave f status body = true ->
  shouldSave (withoutIgnore f) status body = true
  /\ (saveResponses f = true \/ In status (saveStatus f)
      \/ (match_ f <> "" /\ Substring (match_ f) body)).
Proof.
  intros Hs. apply shouldSave_spec in Hs. split.
  - apply shouldSave_spec. unfold specStep4, specStep3, specStep2 in *. simpl.
    destruct Hs as [Hm | Hs]; [now left|]. right.
    destruct (ignoreEmpty f), (ignoreHTMLFiles f); tauto.
  - unfold specStep4, specStep3, specStep2, specStep1 in Hs.
    destruct Hs as [Hm | Hs]; [tauto|].
    destruct (ignoreEmpty f), (ignoreHTMLFiles f); tauto.
Qed.

(** ** The request headers *)

Lemma cutAt_Some (sep : ascii) (s k v : string) :
  cutAt sep s = Some (k, v)
  <-> s = k +:+ String sep v /\ (forall pre post, k <> pre +:+ String sep post).
Proof.
  revert k; induction s as [|c s IH]; intros k; simpl.
  - split; [discriminate|]. intros [E _]. destruct k; discriminate.
  - destruct (Ascii.eqb_spec c sep) as [->|Hc].
    + split.
      * intros [= <- <-]. split; [reflexivity|]. intros [|x pre] post; discriminate.
      * intros [E Hk]. destruct k as [|x k].
        -- simpl in E. now injection E as ->.
        -- simpl in E. injection E as <- _. exfalso. apply (Hk "" k). reflexivity.
    + destruct (cutAt sep s) as [[a b]|] eqn:Ec.
      * split.
        -- intros [= <- <-]. destruct (proj1 (IH a) eq_refl) as [-> Ha]. split; [reflexivity|].
           intros [|x pre] post E; simpl in E; injection E as -> E; [congruence|].
           now apply (Ha pre post).
        -- intros [E Hk]. destruct k as [|x k]; simpl in E; injection E as E1 E2; [congruence|].
           subst x. assert (Some (a, b) = Some (k, v)) as [= -> ->]; [|reflexivity].
           apply IH. split; [exact E2|]. intros pre post E. apply (Hk (String c pre) post).
           simpl. now rewrite E.
      * split; [discriminate|]. intros [E Hk]. exfalso.
        destruct k as [|x k]; simpl in E; injection E as E1 E2; [congruence|].
        assert (None = Some (k, v)) as D; [|discriminate D].
        apply IH. split; [exact E2|]. intros pre post E. apply (Hk (String x pre) post).
        simpl. now rewrite E.
Qed.

Section MoreHeaders.
Context `{Runtime}.

Lemma setHeader_colon (req : Request) (k v : string) :
  NoColon k ->
  reqHeader (setHeader req (k +:+ ":" +:+ v)) = <[CanonicalHeaderKey k := [v]]> (reqHeader req).
Proof.
  intros Hk. unfold setHeader, strings_SplitN2.
  assert (E : cutAt ":" (k +:+ ":" +:+ v) = Some (k, v))
    by (apply cutAt_Some; split; [reflexivity | exact Hk]).
  now rewrite E.
Qed.

(** X8: a header string is cut at its first colon: for a name without
    colon, [name:value] sets the canonical name to the value as written
    (leading blanks and further colons kept); and whenever a string is cut
    in two, the two parts with a colon between them are the string. *)
Theorem header_split_at_first_colon (req : Request) (k v : string) :
  NoColon k ->
  strings_SplitN2 (k +:+ ":" +:+ v) ":" = [k; v]
  /\ reqHeader (setHeader req (k +:+ ":" +:+ v))
     = <[CanonicalHeaderKey k := [v]]> (reqHeader req)
  /\ (forall h k' v', strings_SplitN2 h ":" = [k'; v'] -> h = k' +:+ ":" +:+ v' /\ NoColon k').
Proof.
  intros Hk.
  assert (E : cutAt ":" (k +:+ ":" +:+ v) = Some (k, v)).
  { apply cutAt_Some. split; [reflexivity | exact Hk]. }
  split; [|split].
  - unfold strings_SplitN2. now rewrite E.
  - unfold setHeader, strings_SplitN2. now rewrite E.
  - intros h k' v'. unfold strings_SplitN2.
    destruct (cutAt ":" h) as [[a b]|] eqn:Ec; [|discriminate].
    intros [= <- <-]. now apply cutAt_Some in Ec.
Qed.

Lemma setHeaders_snoc (hs : list string) (h : string) (req : Request) :
  setHeaders (hs ++ [h]) req = setHeader (setHeaders hs req) h.
Proof. unfold setHeaders. now rewrite fold_left_app. Qed.

(** X9: [Header.Set] replaces: after the header strings the canonical name
    of the last one holds its value alone, the other names are as the
    earlier strings left them, and a name that the strings set never holds
    more than one value. *)
Theorem header_last_value_wins (hs : list string) (k v : string) (req : Request) :
  NoColon k ->
  reqHeader (setHeaders (hs ++ [k +:+ ":" +:+ v]) req) !! CanonicalHeaderKey k = Some [v]
  /\ (forall key, key <> CanonicalHeaderKey k ->
        reqHeader (setHeaders (hs ++ [k +:+ ":" +:+ v]) req) !! key
        = reqHeader (setHeaders hs req) !! key)
  /\ (forall key vs,
        reqHeader (setHeaders hs req) !! key = Some vs ->
        reqHeader req !! key = Some vs \/ exists v', vs = [v']).
Proof.
  intros Hk. rewrite setHeaders_snoc.
  rewrite (setHeader_colon (setHeaders hs req) k v Hk).
  split; [apply lookup_insert_eq|]. split.
  - intros key Hne. now apply lookup_insert_ne.
  - clear. induction hs as [|h hs IH] using rev_ind; intros key vs; [now left|].
    rewrite setHeaders_snoc. unfold setHeader at 1.
    destruct (strings_SplitN2 h ":") as [|a [|b [|? ?]]]; simpl; auto.
    destruct (decide (CanonicalHeaderKey a = key)) as [<-|Hne].
    + rewrite lookup_insert_eq. intros [= <-]. right. now exists b.
    + rewrite lookup_insert_ne by exact Hne. apply IH.
Qed.

End MoreHeaders.

(** ** The path normaliser and the key *)

Lemma replaceRuns_class (inRun : bool) (s : string) :
  allBytes pathByte (replaceRuns inRun s) = true.
Proof.
  revert inRun; induction s as [|c s IH]; intros inRun; simpl; [reflexivity|].
  destruct (pathByte c) eqn:Hc; simpl.
  - now rewrite Hc, IH.
  - destruct inRun; [apply IH|]. simpl. apply IH.
Qed.

Lemma replaceRuns_length (inRun : bool) (s : string) :
  (String.length (replaceRuns inRun s) <= String.length s)%nat.
Proof.
  revert inRun; induction s as [|c s IH]; intros inRun; simpl; [lia|].
  destruct (pathByte c); simpl.
  - specialize (IH false). lia.
  - destruct inRun; simpl; specialize (IH true); lia.
Qed.

(** X10: the normalised path has bytes of [a-zA-Z0-9/._-] only, is not
    longer than the path, and normalising it again changes nothing. *)
Theorem normalisePath_is_safe (u : URL) :
  allBytes pathByte (normalisePath u) = true
  /\ (String.length (normalisePath u) <= String.length (Path u))%nat
  /\ normalisePath {| Hostname := Hostname u; Path := normalisePath u |} = normalisePath u.
Proof.
  unfold normalisePath. split; [apply replaceRuns_class|]. split; [apply replaceRuns_length|].
  simpl. apply replaceRuns_allowed, replaceRuns_class.
Qed.

Lemma hashInput_body_header (m rawURL b x : string) :
  hashInput m rawURL (b +:+ x) [] = hashInput m rawURL b [x].
Proof.
  unfold hashInput, headerArgs_String. cbn [strings_Join].
  now rewrite !app_assoc_s, !app_empty_r.
Qed.

Lemma hashInput_joined_headers (m rawURL b h1 h2 : string) :
  hashInput m rawURL b [h1 +:+ ", " +:+ h2] = hashInput m rawURL b [h1; h2].
Proof. reflexivity. Qed.

(** X11: the input of the hash has no separators between its parts, so
    the key is the same when bytes move from the method to the URL, from
    the URL to the body, or from the body to a single header string, and
    when one header string holds two joined by [", "]; in the last two cases
    the path of the artifact is the same too. *)
Theorem key_ignores_field_boundaries (m rawURL b x : string) (hs : list string)
    (prefix : string) (u : URL) :
  artifactKey (m +:+ x) rawURL b hs = artifactKey m (x +:+ rawURL) b hs
  /\ artifactKey m (rawURL +:+ x) b hs = artifactKey m rawURL (x +:+ b) hs
  /\ artifactPath prefix u m rawURL (b +:+ x) [] = artifactPath prefix u m rawURL b [x]
  /\ (forall h1 h2, artifactPath prefix u m rawURL b [h1 +:+ ", " +:+ h2]
                    = artifactPath prefix u m rawURL b [h1; h2]).
Proof.
  unfold artifactPath, artifactKey.
  split; [unfold hashInput; now rewrite !app_assoc_s|].
  split; [unfold hashInput; now rewrite !app_assoc_s|].
  split; [now rewrite hashInput_body_header|].
  intros h1 h2. now rewrite hashInput_joined_headers.
Qed.

(** ** Where the artifact is written *)

Lemma cleanLoop_copy_to_slash (rooted : bool) (e rest out : string) (dotdot : nat) :
  allBytes noSlash e = true ->
  cleanLoop rooted true (e +:+ String "/" rest) out dotdot
  = cleanLoop rooted false rest (String.rev_app e out) dotdot.
Proof.
  revert out; induction e as [|c e IH]; intros out; [reflexivity|].
  simpl. intros [Hc He]%andb_true_iff. unfold noSlash in Hc.
  apply negb_true_iff in Hc. rewrite Hc. now apply IH.
Qed.

Lemma cleanLoop_name (rooted : bool) (e rest out : string) (dotdot : nat) :
  pathName e = true ->
  cleanLoop rooted false (e +:+ String "/" rest) out dotdot
  = cleanLoop rooted false rest (String.rev_app e (withSlash rooted out)) dotdot.
Proof.
  destruct e as [|c e]; [discriminate|]. unfold pathName.
  intros [Hd Hs]%andb_true_iff. simpl in Hs. apply andb_true_iff in Hs as [Hc He].
  unfold noSlash in Hc. apply negb_true_iff in Hc, Hd.
  change (String c e +:+ String "/" rest) with (String c (e +:+ String "/" rest)).
  cbn [cleanLoop]. rewrite Hc, Hd. cbn [andb].
  assert (E : cleanLoop rooted true (e +:+ String "/" rest) (String c (withSlash rooted out)) dotdot
              = cleanLoop rooted false rest (String.rev_app (String c e) (withSlash rooted out)) dotdot)
    by now rewrite cleanLoop_copy_to_slash.
  now destruct (e +:+ String "/" rest).
Qed.

Lemma cleanLoop_dotdot (rooted : bool) (rest out : string) (dotdot : nat) :
  (dotdot <? String.length out)%nat = true ->
  cleanLoop rooted false (String "." (String "." (String "/" rest))) out dotdot
  = cleanLoop rooted false rest (backtrack out dotdot) dotdot.
Proof. intros Hl. cbn [cleanLoop]. simpl. now rewrite Hl. Qed.

Lemma backtrack_rev_app (e out : string) (dotdot : nat) :
  allBytes noSlash e = true -> (dotdot < String.length out)%nat ->
  backtrack (String.rev_app e out) dotdot = backtrack out dotdot.
Proof.
  revert out; induction e as [|c e IH]; intros out; [reflexivity|].
  simpl. intros [Hc He]%andb_true_iff Hl. unfold noSlash in Hc.
  rewrite IH; [|exact He|simpl; lia].
  simpl. apply Nat.ltb_lt in Hl. now rewrite Hl, Hc.
Qed.

Lemma backtrack_to_empty (out : string) :
  allBytes noSlash out = true -> backtrack out 0 = "".
Proof.
  induction out as [|c out IH]; [reflexivity|].
  simpl. intros [Hc Ho]%andb_true_iff. unfold noSlash in Hc.
  destruct out as [|d out]; [reflexivity|].
  cbn [String.length Nat.ltb Nat.leb]. rewrite Hc. now apply IH.
Qed.

Lemma allBytes_rev_app (p : ascii -> bool) (e out : string) :
  allBytes p e = true -> allBytes p out = true -> allBytes p (String.rev_app e out) = true.
Proof.
  revert out; induction e as [|c e IH]; intros out; [auto|].
  simpl. intros [Hc He]%andb_true_iff Ho. apply IH; [exact He|]. simpl. now rewrite Hc.
Qed.

Lemma pathName_noSlash (e : string) : pathName e = true -> allBytes noSlash e = true.
Proof. destruct e; [discriminate|]. unfold pathName. now intros [_ Hs]%andb_true_iff. Qed.

Lemma length_pos (e : string) : e <> "" -> (0 <? String.length e)%nat = true.
Proof. destruct e; [congruence | reflexivity]. Qed.

Lemma pathName_nonempty (e : string) : pathName e = true -> e <> "".
Proof. destruct e; [discriminate | discriminate]. Qed.

Lemma cleanLoop_slash (rooted : bool) (rest out : string) (dotdot : nat) :
  cleanLoop rooted false (String "/" rest) out dotdot = cleanLoop rooted false rest out dotdot.
Proof. reflexivity. Qed.

Lemma withSlash_false (out : string) : out <> "" -> withSlash false out = String "/" out.
Proof. destruct out; [congruence | reflexivity]. Qed.

Lemma backtrack_slash (out : string) (dotdot : nat) : backtrack (String "/" out) dotdot = out.
Proof. simpl. now rewrite andb_false_r. Qed.

Lemma joinBuf_first (e : string) (l : list string) :
  e <> "" -> joinBuf (e :: l) "" = joinBuf l e.
Proof.
  intros He. cbn [joinBuf String.length Nat.ltb Nat.leb orb].
  apply String.eqb_neq in He. now rewrite He.
Qed.

Lemma joinBuf_next (e : string) (l : list string) (buf : string) :
  buf <> "" -> joinBuf (e :: l) buf = joinBuf l (buf +:+ "/" +:+ e).
Proof.
  intros Hb. cbn [joinBuf]. rewrite (length_pos buf Hb). cbn [orb].
  now rewrite app_assoc_s.
Qed.

(** X12: [normalisePath] keeps dots and slashes and [path.Join] resolves
    [..]: for an output directory and a host that are plain names, the URL
    path [/../../d] puts the artifact at [d/<digest>], outside the output
    directory. *)
Theorem artifact_path_can_leave_output_dir (prefix host d : string)
    (m rawURL b : string) (hs : list string) :
  pathName prefix = true -> pathName host = true -> pathName d = true ->
  allBytes pathByte d = true ->
  artifactPath prefix {| Hostname := host; Path := "/../../" +:+ d |} m rawURL b hs
  = d +:+ "/" +:+ fmt_x (artifactKey m rawURL b hs).
Proof.
  intros Hp Hh Hd Hc. unfold artifactPath.
  set (hex := fmt_x (artifactKey m rawURL b hs)).
  assert (Hhex : allBytes plainByte hex = true).
  { apply (allBytes_impl lowerHex); [apply lowerHex_plainByte | apply lowerHex_fmt_x]. }
  assert (Hne : hex <> "").
  { intros E. pose proof (length_fmt_x (artifactKey m rawURL b hs)) as L. fold hex in L.
    unfold artifactKey in L. rewrite E, length_sha1_Sum in L. simpl in L. lia. }
  assert (Hn : normalisePath {| Hostname := host; Path := "/../../" +:+ d |} = "/../../" +:+ d).
  { unfold normalisePath. apply replaceRuns_allowed. simpl. exact Hc. }
  rewrite Hn. cbn [Hostname].
  assert (Hj : path_Join [prefix; host; "/../../" +:+ d; hex]
               = path_Clean (prefix +:+ String "/" (host +:+ String "/"
                   (String "/" (String "." (String "." (String "/"
                     (String "." (String "." (String "/" (d +:+ String "/" hex))))))))))).
  { unfold path_Join.
    assert (Hs : (list_sum (map String.length [prefix; host; "/../../" +:+ d; hex]) =? 0)%nat
                 = false).
    { apply Nat.eqb_neq. destruct prefix; [discriminate | simpl; lia]. }
    rewrite Hs. f_equal.
    rewrite joinBuf_first by now apply pathName_nonempty.
    rewrite !joinBuf_next by (destruct prefix; discriminate).
    cbn [joinBuf]. str_norm. reflexivity. }
  rewrite Hj. unfold path_Clean.
  destruct prefix as [|c p] eqn:Ep; [discriminate|]. rewrite <- Ep in *.
  assert (Hroot : isSlash c = false).
  { apply pathName_noSlash in Hp. rewrite Ep in Hp. simpl in Hp.
    apply andb_true_iff in Hp as [Hp _]. now apply negb_true_iff in Hp. }
  replace (match prefix +:+ _ with "" => "." | String c0 rest => _ end)
    with (let out := cleanLoop false false
            (prefix +:+ String "/" (host +:+ String "/"
               (String "/" (String "." (String "." (String "/"
                 (String "." (String "." (String "/" (d +:+ String "/" hex)))))))))) "" 0 in
          if (String.length out =? 0)%nat then "." else String.rev out)
    by (rewrite Ep; cbn [String.append]; now rewrite Hroot).
  cbv zeta.
  assert (Lp : String.rev_app prefix "" <> "").
  { intros E. pose proof (length_rev_app prefix "") as L. rewrite E, Ep in L. simpl in L. lia. }
  assert (Ld : String.rev_app d "" <> "").
  { intros E. pose proof (length_rev_app d "") as L. rewrite E in L.
    destruct d; [discriminate | simpl in L; lia]. }
  rewrite (cleanLoop_name false prefix) by exact Hp.
  change (withSlash false "") with "".
  rewrite (cleanLoop_name false host) by exact Hh.
  rewrite (withSlash_false _ Lp).
  rewrite cleanLoop_slash.
  rewrite cleanLoop_dotdot by (rewrite length_rev_app; simpl; apply Nat.ltb_lt; lia).
  rewrite backtrack_rev_app; [|now apply pathName_noSlash | simpl; lia].
  rewrite backtrack_slash.
  rewrite cleanLoop_dotdot by now apply length_pos.
  rewrite backtrack_to_empty
    by (apply allBytes_rev_app; [now apply pathName_noSlash | reflexivity]).
  rewrite (cleanLoop_name false d) by exact Hd.
  change (withSlash false "") with "".
  rewrite cleanLoop_element by exact Hhex.
  destruct hex as [|x hex'] eqn:Ex; [congruence|]. rewrite <- Ex in *.
  rewrite (withSlash_false _ Ld).
  assert (Lr : (String.length (String.rev_app hex (String "/" (String.rev_app d ""))) =? 0)%nat
               = false).
  { apply Nat.eqb_neq. rewrite length_rev_app. simpl. lia. }
  rewrite Lr, rev_rev_app.
  unfold String.rev at 1. cbn [String.rev_app].
  rewrite rev_app_rev_app. cbn [String.rev_app]. now rewrite app_assoc_s.
Qed.

(** ** The status codes of [-s] *)

Local Open Scope N_scope.

Lemma digit_pretty_N_char (x : N) :
  (x < 10)%N -> strconv.digit (pretty_N_char x) = Some (Z.of_N x).
Proof.
  intros Hx.
  assert (x = 0 \/ x = 1 \/ x = 2 \/ x = 3 \/ x = 4 \/ x = 5 \/ x = 6 \/ x = 7
          \/ x = 8 \/ x = 9)%N as Hc by lia.
  repeat (destruct Hc as [-> | Hc]; [reflexivity|]). now subst x.
Qed.

Lemma isSign_digit (c : ascii) : strconv.digit c <> None -> strconv.isSign c = false.
Proof.
  unfold strconv.digit, strconv.isSign.
  destruct (Ascii.eqb_spec c "-") as [->|_]; [intros E; now contradiction E|].
  destruct (Ascii.eqb_spec c "+") as [->|_]; [intros E; now contradiction E|].
  reflexivity.
Qed.

(** The digits that [pretty] puts before [s] are read back as the number. *)
Lemma of_N_div_mod (x : N) :
  exists q r : Z,
    Z.of_N (x `div` 10) = q /\ Z.of_N (x `mod` 10) = r
    /\ (Z.of_N x = q * 10 + r /\ 0 <= q /\ 0 <= r < 10)%Z.
Proof.
  exists (Z.of_N (x `div` 10)), (Z.of_N (x `mod` 10)).
  split; [reflexivity|]. split; [reflexivity|].
  pose proof (N.div_mod x 10 ltac:(lia)) as E. pose proof (N.mod_lt x 10 ltac:(lia)) as L.
  set (q := x `div` 10) in *. set (r := x `mod` 10) in *. lia.
Qed.

(** The digits that [pretty] puts before [s] are read back as the number. *)
Lemma atoiLoop_pretty (x : N) (s : string) :
  strconv.atoiLoop (pretty_N_go x s) 0 = strconv.atoiLoop s (Z.of_N x).
Proof.
  revert s. induction (N.lt_wf_0 x) as [x _ IH]. intros s.
  destruct (N.eq_dec x 0) as [->|Hx]; [reflexivity|].
  rewrite pretty_N_go_step by lia.
  rewrite IH by (apply N.div_lt; lia).
  cbn [strconv.atoiLoop]. rewrite digit_pretty_N_char by (apply N.mod_lt; lia).
  destruct (of_N_div_mod x) as (q & r & -> & -> & -> & _). reflexivity.
Qed.

Lemma parseUintLoop_pretty (x : N) (s : string) :
  (Z.of_N x < 2 ^ 64)%Z ->
  strconv.parseUintLoop (pretty_N_go x s) 0 = strconv.parseUintLoop s (Z.of_N x).
Proof.
  revert s. induction (N.lt_wf_0 x) as [x _ IH]. intros s Hx.
  destruct (N.eq_dec x 0) as [->|Hx0]; [reflexivity|].
  rewrite pretty_N_go_step by lia.
  assert (Hm : (x `mod` 10 < 10)%N) by (apply N.mod_lt; lia).
  destruct (of_N_div_mod x) as (q & r & Eq & Er & Ex & Hq & Hr).
  rewrite IH; [|apply N.div_lt; lia|rewrite Eq; lia].
  cbn [strconv.parseUintLoop]. rewrite digit_pretty_N_char by exact Hm.
  unfold strconv.maxUint64. cbv zeta. rewrite Eq, Er, Ex in *.
  assert (H1 : (18446744073709551615 / 10 + 1 <=? q)%Z = false).
  { apply Z.leb_gt. change (18446744073709551615 / 10 + 1)%Z with 1844674407370955162%Z. lia. }
  rewrite H1, (Z.mod_small (q * 10 + r)) by lia.
  assert (H2 : ((q * 10 + r <? q * 10) || (18446744073709551615 <? q * 10 + r))%Z = false).
  { apply orb_false_iff. split; apply Z.ltb_ge; lia. }
  now rewrite H2.
Qed.

Lemma pretty_N_go_head (x : N) (s : string) :
  (0 < x)%N -> exists c rest, pretty_N_go x s = String c rest /\ strconv.digit c <> None.
Proof.
  revert s. induction (N.lt_wf_0 x) as [x _ IH]. intros s Hx.
  rewrite pretty_N_go_step by exact Hx.
  destruct (N.eq_dec (x `div` 10) 0) as [E|E].
  - rewrite E, pretty_N_go_0. eexists _, _. split; [reflexivity|].
    rewrite digit_pretty_N_char by (apply N.mod_lt; lia). discriminate.
  - apply IH; [apply N.div_lt; lia | now apply N.neq_0_lt_0].
Qed.

(** A string of digits that [pretty] gave is read by both paths of [Atoi]. *)
Lemma Atoi_digits (x : N) :
  (0 < x)%N -> (Z.of_N x < 2 ^ 63)%Z ->
  strconv.Atoi (pretty_N_go x "") = (Z.of_N x, None).
Proof.
  intros Hx Hb. destruct (pretty_N_go_head x "" Hx) as (c & rest & E & Hc).
  pose proof (atoiLoop_pretty x "") as Hf. pose proof (parseUintLoop_pretty x "") as Hs.
  rewrite E in *. pose proof (isSign_digit c Hc) as Hsg.
  assert (Hm : (c =? "-")%char = false).
  { unfold strconv.isSign in Hsg. now apply orb_false_iff in Hsg as [? _]. }
  unfold strconv.Atoi. destruct (_ && _).
  - unfold strconv.atoiFast. rewrite Hsg. cbn [andb]. rewrite Hf. cbn [strconv.atoiLoop].
    now rewrite Hm.
  - unfold strconv.ParseInt, strconv.ParseUint. rewrite Hsg, Hm. cbv zeta. rewrite Hs by lia.
    cbn [strconv.parseUintLoop negb andb].
    assert (H1 : (2 ^ 63 <=? Z.of_N x)%Z = false) by (apply Z.leb_gt; lia).
    now rewrite H1.
Qed.

Lemma Atoi_minus_digits (x : N) :
  (0 < x)%N -> (Z.of_N x <= 2 ^ 63)%Z ->
  strconv.Atoi ("-" +:+ pretty_N_go x "") = (- Z.of_N x, None)%Z.
Proof.
  intros Hx Hb. destruct (pretty_N_go_head x "" Hx) as (c & rest & E & Hc).
  pose proof (atoiLoop_pretty x "") as Hf. pose proof (parseUintLoop_pretty x "") as Hs.
  change ("-" +:+ pretty_N_go x "") with (String "-" (pretty_N_go x "")).
  unfold strconv.Atoi. destruct (_ && _).
  - unfold strconv.atoiFast.
    change (strconv.isSign "-") with true. change ("-" =? "-")%char with true. cbv iota.
    rewrite Hf. rewrite E. cbn [String.length Nat.ltb Nat.leb andb strconv.atoiLoop].
    reflexivity.
  - unfold strconv.ParseInt, strconv.ParseUint.
    change (strconv.isSign "-") with true. change ("-" =? "-")%char with true. cbv iota zeta.
    rewrite Hs by lia. rewrite E. cbn [strconv.parseUintLoop negb andb].
    assert (H1 : (2 ^ 63 <? Z.of_N x)%Z = false) by (apply Z.ltb_ge; lia).
    now rewrite H1.
Qed.

Local Close Scope N_scope.

Lemma Atoi_fmt_d (n : Z) :
  (- 2 ^ 63 <= n < 2 ^ 63)%Z -> strconv.Atoi (fmt_d n) = (n, None).
Proof.
  intros Hn. unfold fmt_d, pretty, pretty_Z.
  destruct n as [|p|p]; [reflexivity| |].
  - unfold pretty, pretty_positive, pretty, pretty_N.
    rewrite decide_False by discriminate.
    apply (Atoi_digits (Npos p)); [reflexivity | exact (proj2 Hn)].
  - unfold pretty, pretty_positive, pretty, pretty_N.
    rewrite decide_False by discriminate.
    apply (Atoi_minus_digits (Npos p)); [reflexivity|].
    change (Z.of_N (N.pos p)) with (Z.pos p). lia.
Qed.

Lemma Includes_snoc (s : list Z) (i x : Z) :
  Includes (s ++ [i]) x = Includes s x || (i =? x)%Z.
Proof.
  induction s as [|y s IH]; simpl; [now destruct (i =? x)%Z|].
  destruct (y =? x)%Z; [reflexivity | exact IH].
Qed.

(** X13: [Set] with the decimal text of a status code (any [int] of 64
    bits) appends that code and returns no error; afterwards [Includes]
    finds it and every code that was included before; and with the ignore
    policies off a response with that status is saved. *)
Theorem status_flag_round_trip (s : list Z) (n : Z) :
  (- 2 ^ 63 <= n < 2 ^ 63)%Z ->
  saveStatusArgs_Set s (fmt_d n) = (s ++ [n], None)
  /\ Includes (fst (saveStatusArgs_Set s (fmt_d n))) n = true
  /\ (forall x, Includes s x = true -> Includes (fst (saveStatusArgs_Set s (fmt_d n))) x = true)
  /\ (forall f body,
        saveStatus f = fst (saveStatusArgs_Set s (fmt_d n)) ->
        ignoreHTMLFiles f = false -> ignoreEmpty f = false ->
        shouldSave f n body = true).
Proof.
  intros Hn. unfold saveStatusArgs_Set. rewrite (Atoi_fmt_d n Hn). cbn [fst].
  split; [reflexivity|].
  assert (Hi : Includes (s ++ [n]) n = true)
    by (rewrite Includes_snoc, Z.eqb_refl; apply orb_true_r).
  split; [exact Hi|]. split.
  - intros x Hx. now rewrite Includes_snoc, Hx.
  - intros f body Hs Hh He. apply shouldSave_spec. right.
    unfold specStep3, specStep2, specStep1. rewrite Hh, He, Hs. right. split.
    + destruct s; discriminate.
    + now apply Includes_spec.
Qed.

Lemma atoiFast_error (s : string) :
  match snd (strconv.atoiFast s) with
  | Some strconv.ErrSyntax => fst (strconv.atoiFast s) = 0%Z
  | Some strconv.ErrRange => False
  | None => True
  end.
Proof.
  unfold strconv.atoiFast. destruct s as [|c rest]; [reflexivity|].
  destruct (_ && _); [reflexivity|].
  destruct (strconv.atoiLoop _ 0); [exact I | reflexivity].
Qed.

Lemma ParseInt_error (s : string) :
  match snd (strconv.ParseInt s) with
  | Some strconv.ErrSyntax => fst (strconv.ParseInt s) = 0%Z
  | Some strconv.ErrRange =>
      fst (strconv.ParseInt s) = (2 ^ 63 - 1)%Z \/ fst (strconv.ParseInt s) = (- 2 ^ 63)%Z
  | None => True
  end.
Proof.
  unfold strconv.ParseInt. destruct s as [|c rest]; [reflexivity|]. cbv zeta.
  destruct (strconv.ParseUint _) as [un| |].
  - destruct (negb _ && _); [now left|]. destruct (_ && _); [now right | exact I].
  - reflexivity.
  - cbn [fst snd]. destruct (c =? "-")%char; [now right | now left].
Qed.

(** X14: [Set] never returns an error: the error of [strconv.Atoi] is
    dropped and its value appended, which is 0 for text that is no number
    (the empty text, or text starting with a byte that is neither digit nor
    sign) and the largest or smallest [int] for a number out of range. *)
Theorem status_flag_swallows_errors (s : list Z) (val : string) :
  snd (saveStatusArgs_Set s val) = None
  /\ fst (saveStatusArgs_Set s val) = s ++ [fst (strconv.Atoi val)]
  /\ match snd (strconv.Atoi val) with
     | Some strconv.ErrSyntax => fst (strconv.Atoi val) = 0%Z
     | Some strconv.ErrRange =>
         fst (strconv.Atoi val) = (2 ^ 63 - 1)%Z \/ fst (strconv.Atoi val) = (- 2 ^ 63)%Z
     | None => True
     end
  /\ strconv.Atoi "" = (0%Z, Some strconv.ErrSyntax)
  /\ (forall c rest, strconv.digit c = None -> strconv.isSign c = false ->
        strconv.Atoi (String c rest) = (0%Z, Some strconv.ErrSyntax)).
Proof.
  unfold saveStatusArgs_Set. destruct (strconv.Atoi val) as [i e] eqn:E. cbn [fst snd].
  split; [reflexivity|]. split; [reflexivity|]. split; [|split].
  - unfold strconv.Atoi in E. destruct (_ && _).
    + pose proof (atoiFast_error val) as P. rewrite E in P. cbn [fst snd] in P.
      destruct e as [[|]|]; [exact P | contradiction | exact I].
    + pose proof (ParseInt_error val) as P. now rewrite E in P.
  - reflexivity.
  - intros c rest Hd Hs. unfold strconv.Atoi. destruct (_ && _).
    + unfold strconv.atoiFast. rewrite Hs. cbn [andb strconv.atoiLoop]. now rewrite Hd.
    + unfold strconv.ParseInt, strconv.ParseUint. rewrite Hs. cbv zeta.
      cbn [strconv.parseUintLoop]. now rewrite Hd.
Qed.

(** ** Case in the HTML test, and the names of the files *)

Lemma foldCase_idem (c : ascii) : foldCase (foldCase c) = foldCase c.
Proof. destruct c as [[] [] [] [] [] [] [] []]; reflexivity. Qed.

Lemma HasPrefixFold_foldString (s lit : string) :
  HasPrefixFold (foldString s) lit = HasPrefixFold s lit.
Proof.
  revert s; induction lit as [|p lit IH]; intros s; [reflexivity|].
  destruct s as [|c s]; [reflexivity|]. simpl. now rewrite foldCase_idem, IH.
Qed.

Lemma regexp_MatchFold_foldString (lit body : string) :
  regexp_MatchFold lit (foldString body) = regexp_MatchFold lit body.
Proof.
  induction body as [|c body IH].
  - simpl. now destruct lit.
  - cbn [foldString regexp_MatchFold]. rewrite IH.
    change (String (foldCase c) (foldString body)) with (foldString (String c body)).
    now rewrite HasPrefixFold_foldString.
Qed.

(** X15: the HTML test does not see the case of ASCII letters: two bodies
    that differ at most in the case of their letters are judged alike. *)
Theorem html_test_ignores_case (body1 body2 : string) :
  equalFold body1 body2 -> isHTML_Match body1 = isHTML_Match body2.
Proof.
  intros E. apply equalFold_foldString in E. unfold isHTML_Match.
  rewrite <- (regexp_MatchFold_foldString _ body1), <- (regexp_MatchFold_foldString _ body2).
  now rewrite E.
Qed.

Lemma hexdigit_inj (a b : Z) :
  (0 <= a < 16)%Z -> (0 <= b < 16)%Z -> hexdigit a = hexdigit b -> a = b.
Proof.
  intros Ha Hb.
  assert (Ca : (a = 0 \/ a = 1 \/ a = 2 \/ a = 3 \/ a = 4 \/ a = 5 \/ a = 6 \/ a = 7 \/ a = 8
               \/ a = 9 \/ a = 10 \/ a = 11 \/ a = 12 \/ a = 13 \/ a = 14 \/ a = 15)%Z) by lia.
  assert (Cb : (b = 0 \/ b = 1 \/ b = 2 \/ b = 3 \/ b = 4 \/ b = 5 \/ b = 6 \/ b = 7 \/ b = 8
               \/ b = 9 \/ b = 10 \/ b = 11 \/ b = 12 \/ b = 13 \/ b = 14 \/ b = 15)%Z) by lia.
  repeat (destruct Ca as [-> | Ca]); try subst a;
    repeat (destruct Cb as [-> | Cb]); try subst b;
    intros E; first [reflexivity | discriminate E].
Qed.

Lemma fmt_x_inj (bs1 bs2 : list Z) :
  Forall (fun b => 0 <= b < 256)%Z bs1 -> Forall (fun b => 0 <= b < 256)%Z bs2 ->
  fmt_x bs1 = fmt_x bs2 -> bs1 = bs2.
Proof.
  intros H1; revert bs2; induction H1 as [|a bs1 Ha _ IH]; intros bs2 H2 E.
  - destruct bs2; [reflexivity | discriminate].
  - destruct H2 as [|b bs2 Hb H2]; [discriminate|].
    simpl in E. injection E as E1 E2 E3.
    assert (Da : (0 <= a / 16 < 16)%Z)
      by (split; [apply Z.div_pos; lia | apply Z.div_lt_upper_bound; lia]).
    assert (Db : (0 <= b / 16 < 16)%Z)
      by (split; [apply Z.div_pos; lia | apply Z.div_lt_upper_bound; lia]).
    apply hexdigit_inj in E1; [|exact Da|exact Db].
    apply hexdigit_inj in E2; [|apply Z.mod_pos_bound; lia..].
    f_equal; [|now apply IH].
    rewrite (Z.div_mod a 16), (Z.div_mod b 16) by lia. now rewrite E1, E2.
Qed.

Lemma be_bytes_range (n : nat) (x : Z) : Forall (fun b => 0 <= b < 256)%Z (sha1.be_bytes n x).
Proof.
  induction n as [|n IH]; simpl; constructor; [|exact IH].
  apply Z.mod_pos_bound. lia.
Qed.

Lemma sha1_Sum_bytes (data : string) : Forall (fun b => 0 <= b < 256)%Z (sha1.Sum data).
Proof. unfold sha1.Sum. repeat (apply Forall_app; split); apply be_bytes_range. Qed.

(** X16: the hexadecimal file name loses nothing of the digest: two
    artifacts have the same file name only if their digests are equal. *)
Theorem file_name_determines_digest (m1 u1 b1 m2 u2 b2 : string) (hs1 hs2 : list string) :
  fmt_x (artifactKey m1 u1 b1 hs1) = fmt_x (artifactKey m2 u2 b2 hs2) ->
  artifactKey m1 u1 b1 hs1 = artifactKey m2 u2 b2 hs2.
Proof. unfold artifactKey. apply fmt_x_inj; apply sha1_Sum_bytes. Qed.

(** ** Instances *)

Lemma NoColon_of_Contains (h : string) : bytes_Contains h ":" = false -> NoColon h.
Proof.
  intros Hc pre post E.
  assert (C : bytes_Contains h ":" = true) by (apply bytes_Contains_spec; now exists pre, post).
  congruence.
Qed.

Lemma written_paths_ignore_order_witness :
  dom (files (@run exampleWorld scenario2 ["http://example.com/"; "http://example.com/a"]%string
                   (start "GET")))
  = dom (files (@run exampleWorld scenario2
                     ["http://example.com/a"; "http://example.com/"; "http://example.com/a"]%string
                     (start "GET"))).
Proof.
  apply (@written_paths_ignore_order exampleWorld).
  intros u. simpl. tauto.
Defined.

Lemma blank_body_saved_by_match_only_witness :
  shouldSave scenario4 200 ("  " +:+ LF) = false.
Proof.
  rewrite (blank_body_saved_by_match_only scenario4 200 ("  " +:+ LF)); reflexivity.
Defined.

Lemma ignore_policies_only_skip_witness :
  shouldSave (withoutIgnore scenario4) 200 "foobar" = true.
Proof.
  apply (ignore_policies_only_skip scenario4 200 "foobar"). reflexivity.
Defined.

Lemma header_split_at_first_colon_witness :
  strings_SplitN2 ("Host" +:+ ":" +:+ " a:b") ":" = ["Host"; " a:b"]%string.
Proof.
  apply (@header_split_at_first_colon exampleWorld
           {| reqMethod := "GET"; reqURL := exampleRoot; reqHeader := ∅; reqBody := None |}
           "Host" " a:b").
  apply NoColon_of_Contains. reflexivity.
Defined.

Lemma header_last_value_wins_witness :
  reqHeader (@setHeaders exampleWorld (["X-A: 1"%string; "X-B: 2"%string] ++ ["X-A" +:+ ":" +:+ " 3"])
               {| reqMethod := "GET"; reqURL := exampleRoot; reqHeader := ∅; reqBody := None |})
    !! "X-A"%string
  = Some [" 3"%string].
Proof.
  apply (@header_last_value_wins exampleWorld ["X-A: 1"; "X-B: 2"]%string "X-A" " 3").
  apply NoColon_of_Contains. reflexivity.
Defined.

Lemma artifact_path_can_leave_output_dir_witness :
  artifactPath "out" {| Hostname := "example.com"; Path := "/../../" +:+ "etc" |}
               "GET" "http://example.com/../../etc" "" []
  = "etc" +:+ "/" +:+ fmt_x (artifactKey "GET" "http://example.com/../../etc" "" []).
Proof.
  apply (artifact_path_can_leave_output_dir "out" "example.com" "etc"); reflexivity.
Defined.

Lemma status_flag_round_trip_witness :
  saveStatusArgs_Set [200%Z] (fmt_d 404) = ([200; 404]%Z, None).
Proof.
  apply (status_flag_round_trip [200%Z] 404). lia.
Defined.

Lemma file_name_determines_digest_witness :
  artifactKey "GET" "http://example.com/" "" [] = artifactKey "GET" "http://example.com/" "" [].
Proof.
  apply (file_name_determines_digest "GET" "http://example.com/" "" "GET"
           "http://example.com/" "" [] []).
  reflexivity.
Defined.

Lemma html_test_ignores_case_witness :
  equalFold "<!DOCTYPE html><HtMl>" "<!doctype HTML><html>"
  /\ isHTML_Match "<!DOCTYPE html><HtMl>" = isHTML_Match "<!doctype HTML><html>"
  /\ isHTML_Match "<!doctype HTML><html>" = true.
Proof.
  assert (E : equalFold "<!DOCTYPE html><HtMl>" "<!doctype HTML><html>").
  { repeat (constructor;
            [first [ left; reflexivity
                   | right; left; split; reflexivity
                   | right; right; split; reflexivity ]|]).
    constructor. }
  split; [exact E|].
  split; [exact (html_test_ignores_case _ _ E) | reflexivity].
Defined.
